(** * pseyepy: a shallow embedding of [pseyepy/cameras.pyx]

    The Cython module wraps the PS3EYE C API ([ps3eye_capi.h]) in two
    Python classes: [CtrlList], a list whose item assignment validates a
    control value, pushes it to the hardware and verifies it by reading it
    back, and [Camera], which opens a group of devices, owns one frame
    buffer per device, reads frames and tears everything down once.

    Modelling choices.
    - The C driver is external: it is an interface ([Driver]) over an
      abstract driver state.  Every call that crosses into it is recorded,
      in order, in a trace together with the warnings the module emits, so
      that statements such as "no open call is issued" are statements about
      the trace.
    - Python values that reach a control are booleans and integers
      ([pyval]); their equality is Python's [==], under which [True == 1]
      and [False == 0].  Floats and other objects are outside the model.
    - A Python integer passed to a C [int] parameter is range checked by
      Cython and raises [OverflowError] when it does not fit; an [int]
      returned by the driver is read as a 32-bit two's complement number.
    - Python exceptions are the [Raise] results of a state-and-error monad;
      effects performed before an exception persist.
    - [Camera.check_fps] measures wall-clock time in floating point and is
      not embedded. *)

From stdpp Require Import gmap strings list pretty.
From Stdlib Require Import ZArith Strings.Byte.

Local Open Scope Z_scope.

(** ** The PS3EYE C API: enumerations *)

Inductive ps3eye_format : Type :=
| PS3EYE_FORMAT_BAYER
| PS3EYE_FORMAT_RGB
| PS3EYE_FORMAT_BGR.

Inductive ps3eye_parameter : Type :=
| PS3EYE_AUTO_GAIN
| PS3EYE_GAIN
| PS3EYE_AUTO_WHITEBALANCE
| PS3EYE_AUTO_EXPOSURE
| PS3EYE_EXPOSURE
| PS3EYE_SHARPNESS
| PS3EYE_CONTRAST
| PS3EYE_BRIGHTNESS
| PS3EYE_HUE
| PS3EYE_REDBALANCE
| PS3EYE_BLUEBALANCE
| PS3EYE_GREENBALANCE
| PS3EYE_HFLIP
| PS3EYE_VFLIP.

#[global] Instance ps3eye_format_eq_dec : EqDecision ps3eye_format.
Proof. solve_decision. Defined.

#[global] Instance ps3eye_parameter_eq_dec : EqDecision ps3eye_parameter.
Proof. solve_decision. Defined.

(** ** Python values, equality, membership and formatting *)

Inductive pyval : Type :=
| PBool (b : bool)
| PInt (z : Z).

#[global] Instance pyval_eq_dec : EqDecision pyval.
Proof. solve_decision. Defined.

(** The integer a value denotes: [bool] is a subclass of [int]. *)
Definition py_index (v : pyval) : Z :=
  match v with
  | PBool b => Z.b2z b
  | PInt z => z
  end.

(** [a == b] *)
Definition py_eq (a b : pyval) : bool := py_index a =? py_index b.

(** [x in l] for a list [l]: some element is equal to [x]. *)
Fixpoint py_in (x : pyval) (l : list pyval) : bool :=
  match l with
  | [] => false
  | e :: l' => py_eq x e || py_in x l'
  end.

(** [list(range(n))] *)
Definition py_range (n : Z) : list pyval := PInt <$> seqZ 0 n.

(** [str(v)], which is also [repr(v)] for these values. *)
Definition py_str (v : pyval) : string :=
  match v with
  | PBool true => "True"
  | PBool false => "False"
  | PInt z => pretty z
  end.

Fixpoint py_join (sep : string) (l : list string) : string :=
  match l with
  | [] => ""
  | [s] => s
  | s :: l' => s +:+ sep +:+ py_join sep l'
  end.

(** [str(l)] for a list. *)
Definition py_list_str (l : list pyval) : string :=
  "[" +:+ py_join ", " (py_str <$> l) +:+ "]".

Definition nl : string := String (Ascii.ascii_of_nat 10) EmptyString.

(** ** C [int] at the Cython boundary *)

Definition INT_MIN : Z := - 2 ^ 31.
Definition INT_MAX : Z := 2 ^ 31 - 1.

Definition fits_int (z : Z) : bool := (INT_MIN <=? z) && (z <=? INT_MAX).

(** A C [int] result read as a Python integer. *)
Definition int_wrap (z : Z) : Z := (z + 2 ^ 31) mod 2 ^ 32 - 2 ^ 31.

(** ** Exceptions, observable events and the monad *)

Inductive py_exn : Type :=
| Exception (msg : string)
| KeyError
| IndexError
| OverflowError
| ValueError.

Inductive result (A : Type) : Type :=
| Ok (a : A)
| Raise (e : py_exn).
Arguments Ok {A} a.
Arguments Raise {A} e.

Inductive event : Type :=
| ev_init
| ev_uninit
| ev_count_connected
| ev_open (id width height fps : Z) (fmt : ps3eye_format)
| ev_close (id : Z)
| ev_grab_frame (id : Z)
| ev_get_parameter (id : Z) (param : ps3eye_parameter)
| ev_set_parameter (id : Z) (param : ps3eye_parameter) (value : Z)
| ev_warn (msg : string)
| ev_atexit_register.

#[global] Instance event_eq_dec : EqDecision event.
Proof. solve_decision. Defined.

Definition is_open_call (e : event) : bool :=
  match e with ev_open _ _ _ _ _ => true | _ => false end.

Definition is_set_call (e : event) : bool :=
  match e with ev_set_parameter _ _ _ => true | _ => false end.

Definition is_close_call (e : event) : bool :=
  match e with ev_close _ => true | _ => false end.

Definition is_uninit_call (e : event) : bool :=
  match e with ev_uninit => true | _ => false end.

Definition is_warning (e : event) : bool :=
  match e with ev_warn _ => true | _ => false end.

Definition is_get_call (e : event) : bool :=
  match e with ev_get_parameter _ _ => true | _ => false end.

Definition is_grab_call (e : event) : bool :=
  match e with ev_grab_frame _ => true | _ => false end.

(** The driver behind [ps3eye_capi.h].  Reading a parameter or the number
    of connected devices is a query of the driver state; the other calls
    may change it, and what they answer is up to the driver.
    [ps3eye_get_unique_identifier] is declared by the module but never
    called, so it is left out. *)
Class Driver (D : Type) : Type := {
  drv_init : D -> D;
  drv_uninit : D -> D;
  drv_count_connected : D -> Z;
  drv_open : D -> Z -> Z -> Z -> Z -> ps3eye_format -> D * bool;
  drv_close : D -> Z -> D;
  drv_grab_frame : D -> Z -> D * list byte;
  drv_get_parameter : D -> Z -> ps3eye_parameter -> Z;
  drv_set_parameter : D -> Z -> ps3eye_parameter -> Z -> D * Z
}.

Record world (D : Type) : Type := World {
  drv : D;
  trace : list event
}.
Arguments World {D} drv trace.
Arguments drv {D} _.
Arguments trace {D} _.

Definition M (D A : Type) : Type := world D -> result A * world D.

Definition ret {D A} (a : A) : M D A := fun s => (Ok a, s).

Definition raise {D A} (e : py_exn) : M D A := fun s => (Raise e, s).

Definition bind {D A B} (c : M D A) (k : A -> M D B) : M D B :=
  fun s =>
    match c s with
    | (Ok a, s') => k a s'
    | (Raise e, s') => (Raise e, s')
    end.

Notation "'let!' x ':=' c 'in' k" := (bind c (fun x => k))
  (at level 10, x name, c at level 100, k at level 200).
Notation "c ';;;' k" := (bind c (fun _ => k))
  (at level 100, k at level 200, right associativity).

(** [for x in l: s = body x s], stopping at the first exception. *)
Fixpoint for_each {D A S} (body : A -> S -> M D S) (l : list A) (s : S) : M D S :=
  match l with
  | [] => ret s
  | x :: l' => let! s' := body x s in for_each body l' s'
  end.

(** [[f(x) for x in l]] *)
Fixpoint comprehension {D A B} (f : A -> M D B) (l : list A) : M D (list B) :=
  match l with
  | [] => ret []
  | x :: l' => let! y := f x in let! ys := comprehension f l' in ret (y :: ys)
  end.

(** ** The parameter registry, [Camera._PARAMS]

    A dict literal; its insertion order is the order in which the control
    channels are built.  The entry for [PS3EYE_AUTO_EXPOSURE] is commented
    out in the source. *)
Definition _PARAMS : list (ps3eye_parameter * (string * list pyval)) :=
  [ (PS3EYE_AUTO_GAIN,         ("auto_gain",         [PBool true; PBool false]));
    (PS3EYE_AUTO_WHITEBALANCE, ("auto_whitebalance", [PBool true; PBool false]));
    (PS3EYE_GAIN,              ("gain",              py_range 64));
    (PS3EYE_EXPOSURE,          ("exposure",          py_range 256));
    (PS3EYE_SHARPNESS,         ("sharpness",         py_range 64));
    (PS3EYE_CONTRAST,          ("contrast",          py_range 256));
    (PS3EYE_BRIGHTNESS,        ("brightness",        py_range 256));
    (PS3EYE_HUE,               ("hue",               py_range 256));
    (PS3EYE_REDBALANCE,        ("red_balance",       py_range 256));
    (PS3EYE_BLUEBALANCE,       ("blue_balance",      py_range 256));
    (PS3EYE_GREENBALANCE,      ("green_balance",     py_range 256));
    (PS3EYE_HFLIP,             ("hflip",             [PBool true; PBool false]));
    (PS3EYE_VFLIP,             ("vflip",             [PBool true; PBool false])) ].

(** [d[k]] on a dict given by its items. *)
Fixpoint dict_get {K V} `{EqDecision K} (d : list (K * V)) (k : K) : option V :=
  match d with
  | [] => None
  | (k', v) :: d' => if decide (k = k') then Some v else dict_get d' k
  end.

Definition RES_SMALL : Z := 0.
Definition RES_LARGE : Z := 1.

Definition _RESOLUTION : list (Z * (Z * Z)) :=
  [ (RES_SMALL, (320, 240));
    (RES_LARGE, (640, 480)) ].

(** ** Warning and exception texts *)

Definition adjustment_msg (outcome name : string) (valid : list pyval) (req : pyval)
  : string :=
  nl +:+ "Parameter adjustment for " +:+ name +:+ " " +:+ outcome +:+ "." +:+
  nl +:+ "Allowed values for " +:+ name +:+ ": " +:+ py_list_str valid +:+
  nl +:+ "Requested value: " +:+ py_str req.

Definition aborted_msg : string -> list pyval -> pyval -> string :=
  adjustment_msg "aborted".

Definition failed_msg : string -> list pyval -> pyval -> string :=
  adjustment_msg "failed".

Definition no_camera_msg (_id count : Z) : string :=
  "No camera available at index " +:+ pretty _id +:+ "." +:+
  nl +:+ "Available cameras: " +:+ pretty count.

Definition open_failed_msg (_id : Z) : string :=
  "Camera at index " +:+ pretty _id +:+ " failed to initialize.".

(** ** Objects *)

(** [CtrlList]: a list with the three attributes [__init__] adds. *)
Record CtrlList : Type := mkCtrlList {
  items : list pyval;
  param_id : ps3eye_parameter;
  nm : string;
  valid : list pyval
}.

(** [np.bytes_(n)] for an integer [n >= 0]: [n] zero bytes. *)
Definition np_bytes (n : Z) : list byte := replicate (Z.to_nat n) x00.

(** What [np.frombuffer] and [reshape] return: an array that aliases the
    buffer it was made from.  The buffer is named by its key in
    [Camera.buffers]; the array holds no bytes of its own. *)
Record ndarray : Type := mkArray {
  base : Z;
  shape : list Z
}.

(** A [Camera] object.  [buffers] is the dict keyed by device index;
    [controls] holds the attributes that [setattr(self, pname, ...)] adds,
    one [CtrlList] per registry entry, by name. *)
Record Camera : Type := mkCamera {
  ids : list Z;
  resolution : Z * Z;
  w : Z;
  h : Z;
  fps : Z;
  format : ps3eye_format;
  depth : Z;
  buffers : gmap Z (list byte);
  controls : gmap string CtrlList;
  _ended : bool
}.

(** The [ids] argument of [Camera]: one integer or a sequence of them. *)
Inductive ids_arg : Type :=
| IdsInt (i : Z)
| IdsSeq (l : list Z).

(** [list.__setitem__(pos, val)] with an integer index: negative indices
    count from the end, anything out of range raises [IndexError]. *)
Definition py_slot (n pos : Z) : Z := if pos <? 0 then pos + n else pos.

Definition list_setitem (l : list pyval) (pos : Z) (val : pyval)
  : option (list pyval) :=
  let n := Z.of_nat (length l) in
  let i := py_slot n pos in
  if (0 <=? i) && (i <? n) then Some (<[Z.to_nat i := val]> l) else None.

(** What [ps3eye_grab_frame] does to the caller's buffer: the bytes of the
    frame are written over its start, in place; the buffer keeps its size. *)
Definition overwrite (buf frame : list byte) : list byte :=
  take (length buf) frame ++ drop (length frame) buf.

(** ** The module, over any driver *)

Section Pseyepy.
Context {D : Type} `{!Driver D}.

Definition emit (e : event) : M D unit :=
  fun s => (Ok tt, World (drv s) (trace s ++ [e])).

(** Coercion of a Python integer to a C [int] argument. *)
Definition as_int (z : Z) : M D Z :=
  if fits_int z then ret z else raise OverflowError.

(** *** The [cdef extern] functions *)

Definition ps3eye_init : M D unit :=
  fun s => (Ok tt, World (drv_init (drv s)) (trace s ++ [ev_init])).

Definition ps3eye_uninit : M D unit :=
  fun s => (Ok tt, World (drv_uninit (drv s)) (trace s ++ [ev_uninit])).

Definition ps3eye_count_connected : M D Z :=
  fun s => (Ok (int_wrap (drv_count_connected (drv s))),
            World (drv s) (trace s ++ [ev_count_connected])).

Definition ps3eye_open (id width height fps : Z) (fmt : ps3eye_format) : M D bool :=
  fun s =>
    let '(d, ok) := drv_open (drv s) id width height fps fmt in
    (Ok ok, World d (trace s ++ [ev_open id width height fps fmt])).

Definition ps3eye_close (id : Z) : M D unit :=
  fun s => (Ok tt, World (drv_close (drv s) id) (trace s ++ [ev_close id])).

Definition ps3eye_grab_frame (id : Z) : M D (list byte) :=
  fun s =>
    let '(d, frame) := drv_grab_frame (drv s) id in
    (Ok frame, World d (trace s ++ [ev_grab_frame id])).

Definition ps3eye_get_parameter (id : Z) (param : ps3eye_parameter) : M D Z :=
  fun s => (Ok (int_wrap (drv_get_parameter (drv s) id param)),
            World (drv s) (trace s ++ [ev_get_parameter id param])).

Definition ps3eye_set_parameter (id : Z) (param : ps3eye_parameter) (value : Z)
  : M D Z :=
  fun s =>
    let '(d, r) := drv_set_parameter (drv s) id param value in
    (Ok (int_wrap r), World d (trace s ++ [ev_set_parameter id param value])).

(** [warnings.warn(msg)] under the default filter: the warning is shown
    and execution goes on. *)
Definition warnings_warn (msg : string) : M D unit := emit (ev_warn msg).

(** *** [cam_count] *)

Definition cam_count : M D Z :=
  ps3eye_init ;;;
  let! n := ps3eye_count_connected in
  ps3eye_uninit ;;;
  ret n.

(** *** [CtrlList] *)

(** [CtrlList.__init__(self, args, param_id=param_id)] *)
Definition CtrlList_init (args : list pyval) (pid : ps3eye_parameter) : M D CtrlList :=
  match dict_get _PARAMS pid with
  | Some (name, vals) => ret (mkCtrlList args pid name vals)
  | None => raise KeyError
  end.

(** [CtrlList.__setitem__(self, pos, val)]; the list is updated in place,
    so the method returns the object after the call. *)
Definition CtrlList_setitem (self : CtrlList) (pos : Z) (val : pyval) : M D CtrlList :=
  if negb (py_in val (valid self)) then
    warnings_warn (aborted_msg (nm self) (valid self) val) ;;;
    ret self
  else
    let! cpos := as_int pos in
    let! cval := as_int (py_index val) in
    ps3eye_set_parameter cpos (param_id self) cval ;;;
    let! conf := ps3eye_get_parameter cpos (param_id self) in
    if negb (py_eq (PInt conf) val) then
      warnings_warn (failed_msg (nm self) (valid self) val) ;;;
      ret self
    else
      match list_setitem (items self) pos val with
      | Some l => ret (mkCtrlList l (param_id self) (nm self) (valid self))
      | None => raise IndexError
      end.

(** *** [Camera] *)

Definition normalize_ids (a : ids_arg) : list Z :=
  match a with
  | IdsInt i => [i]
  | IdsSeq l => l
  end.

(** The body of the loop "init all cameras". *)
Definition open_camera (width height fps0 : Z) (fmt : ps3eye_format) (depth0 count : Z)
    (_id : Z) (bufs : gmap Z (list byte)) : M D (gmap Z (list byte)) :=
  if count <=? _id then
    ps3eye_uninit ;;;
    raise (Exception (no_camera_msg _id count))
  else
    let! cid := as_int _id in
    let! cfps := as_int fps0 in
    let! success := ps3eye_open cid width height cfps fmt in
    if negb success then
      raise (Exception (open_failed_msg _id))
    else
      ret (<[_id := np_bytes (width * height * depth0)]> bufs).

(** [[ps3eye_get_parameter(i, pconst) for i in self.ids]] *)
Definition read_parameters (pconst : ps3eye_parameter) (l : list Z) : M D (list pyval) :=
  comprehension
    (fun i => let! ci := as_int i in
              let! v := ps3eye_get_parameter ci pconst in
              ret (PInt v))
    l.

(** The body of the loop "params": [setattr(self, pname, CtrlList(...))]. *)
Definition make_control (l : list Z) (entry : ps3eye_parameter * (string * list pyval))
    (attrs : gmap string CtrlList) : M D (gmap string CtrlList) :=
  let '(pconst, (pname, _)) := entry in
  let! vals := read_parameters pconst l in
  let! c := CtrlList_init vals pconst in
  ret (<[pname := c]> attrs).

(** [Camera.__init__(self, ids, resolution, fps, color)] *)
Definition Camera_init (ids0 : ids_arg) (resolution0 fps0 : Z) (color : bool)
  : M D Camera :=
  let l := normalize_ids ids0 in
  match dict_get _RESOLUTION resolution0 with
  | None => raise KeyError
  | Some (width, height) =>
      let '(fmt, depth0) :=
        if color then (PS3EYE_FORMAT_RGB, 3) else (PS3EYE_FORMAT_RGB, 3) in
      ps3eye_init ;;;
      let! count := ps3eye_count_connected in
      let! bufs := for_each (open_camera width height fps0 fmt depth0 count) l ∅ in
      let! attrs := for_each (make_control l) _PARAMS ∅ in
      emit ev_atexit_register ;;;
      ret (mkCamera l (width, height) width height fps0 fmt depth0 bufs attrs false)
  end.

(** The body of the loop of [read]; the state is the buffer table and the
    list [imgs] built so far. *)
Definition read_frame (self : Camera) (_id : Z)
    (st : gmap Z (list byte) * list ndarray) : M D (gmap Z (list byte) * list ndarray) :=
  let '(bufs, imgs) := st in
  let! cid := as_int _id in
  match bufs !! _id with
  | None => raise KeyError
  | Some buf =>
      let! frame := ps3eye_grab_frame cid in
      let buf' := overwrite buf frame in
      if Z.of_nat (length buf') =? h self * w self * depth self then
        ret (<[_id := buf']> bufs, imgs ++ [mkArray _id [h self; w self; depth self]])
      else
        raise ValueError
  end.

(** [Camera.read(self)]: the images and the object after the call. *)
Definition Camera_read (self : Camera) : M D (list ndarray * Camera) :=
  let! st := for_each (read_frame self) (ids self) (buffers self, []) in
  ret (st.2,
       mkCamera (ids self) (resolution self) (w self) (h self) (fps self)
                (format self) (depth self) st.1 (controls self) (_ended self)).

(** [Camera.end(self)] *)
Definition Camera_end (self : Camera) : M D Camera :=
  if negb (_ended self) then
    for_each (fun _id (_ : unit) => let! cid := as_int _id in ps3eye_close cid)
             (ids self) tt ;;;
    ps3eye_uninit ;;;
    ret (mkCamera (ids self) (resolution self) (w self) (h self) (fps self)
                  (format self) (depth self) (buffers self) (controls self) true)
  else
    ret self.

(** *** Vocabulary for the statements *)

(** The driver's answers to the [ps3eye_open] calls for the devices of [l],
    issued in order from driver state [d]: do they all report success, and
    in which state do they leave the driver. *)
Fixpoint opens_succeed (width height fps0 : Z) (fmt : ps3eye_format)
    (l : list Z) (d : D) : bool :=
  match l with
  | [] => true
  | i :: l' =>
      let '(d', ok) := drv_open d i width height fps0 fmt in
      ok && opens_succeed width height fps0 fmt l' d'
  end.

Fixpoint opened_state (width height fps0 : Z) (fmt : ps3eye_format)
    (l : list Z) (d : D) : D :=
  match l with
  | [] => d
  | i :: l' => opened_state width height fps0 fmt l' (drv_open d i width height fps0 fmt).1
  end.

(** The buffer table after the loop "init all cameras" has run over [l]:
    each index in turn is bound to a fresh buffer of [n] bytes. *)
Definition allocated (n : Z) (l : list Z) (bufs : gmap Z (list byte))
  : gmap Z (list byte) :=
  foldl (fun b i => <[i := np_bytes n]> b) bufs l.

(** What the driver in state [d] answers to get-parameter for control [p]
    on each device of [l]. *)
Definition seed_values (d : D) (p : ps3eye_parameter) (l : list Z) : list pyval :=
  (fun i => PInt (int_wrap (drv_get_parameter d i p))) <$> l.

(** The attributes the loop "params" sets when it runs over the registry
    entries [ps] against driver state [d]. *)
Definition seeded_controls (d : D) (l : list Z)
    (ps : list (ps3eye_parameter * (string * list pyval)))
    (attrs : gmap string CtrlList) : gmap string CtrlList :=
  foldl (fun a e => <[e.2.1 := mkCtrlList (seed_values d e.1 l) e.1 e.2.1 e.2.2]> a)
        attrs ps.

(** The get-parameter calls of the loop "params": for each registry entry
    in turn, one call per device of [l]. *)
Definition get_calls (l : list Z) (ps : list (ps3eye_parameter * (string * list pyval)))
  : list event :=
  concat ((fun e => (fun i => ev_get_parameter i e.1) <$> l) <$> ps).

(** The frames the driver delivers to the grab calls for the devices of
    [l], issued in order from driver state [d]. *)
Fixpoint grabbed_frames (l : list Z) (d : D) : list (list byte) :=
  match l with
  | [] => []
  | i :: l' =>
      let '(d', frame) := drv_grab_frame d i in
      frame :: grabbed_frames l' d'
  end.

(** The driver state after [ps3eye_close] on each device of [l]. *)
Definition closed_state (l : list Z) (d : D) : D := foldl drv_close d l.

(** The statement [cam.<name>[pos] = val] stores the updated list back
    under the same attribute. *)
Definition with_controls (self : Camera) (attrs : gmap string CtrlList) : Camera :=
  mkCamera (ids self) (resolution self) (w self) (h self) (fps self)
           (format self) (depth self) (buffers self) attrs (_ended self).

(** The sessions a caller can hold: what [Camera(...)] returned, and what
    it has become after any sequence of [read], [end] and control writes. *)
Inductive session : Camera -> Prop :=
| session_init a r f c s cam s' :
    Camera_init a r f c s = (Ok cam, s') -> session cam
| session_read cam s imgs cam' s' :
    session cam -> Camera_read cam s = (Ok (imgs, cam'), s') -> session cam'
| session_end cam s cam' s' :
    session cam -> Camera_end cam s = (Ok cam', s') -> session cam'
| session_write cam name ctl pos val s ctl' s' :
    session cam -> controls cam !! name = Some ctl ->
    CtrlList_setitem ctl pos val s = (Ok ctl', s') ->
    session (with_controls cam (<[name := ctl']> (controls cam))).

(** Every managed index is a C [int] and owns a buffer of
    [h * w * depth] bytes. *)
Definition session_wf (self : Camera) : Prop :=
  Forall (fun i => fits_int i = true /\
                   exists buf, buffers self !! i = Some buf /\
                               Z.of_nat (length buf) = h self * w self * depth self)
         (ids self).

End Pseyepy.

(** ** A simulated driver

    A small executable driver used to run the module on concrete inputs:
    [connected] cameras are plugged in, [ps3eye_open] succeeds exactly on
    their indices, every control register reads [0] until it is written,
    and a write is stored only when the firmware [obeys]. *)

Module Sim.

Record state : Type := mkState {
  connected : Z;
  obeys : bool;
  regs : list ((Z * ps3eye_parameter) * Z)
}.

Definition get (s : state) (id : Z) (p : ps3eye_parameter) : Z :=
  default 0 (dict_get (regs s) (id, p)).

Definition set (s : state) (id : Z) (p : ps3eye_parameter) (v : Z) : state * Z :=
  if obeys s then (mkState (connected s) (obeys s) (((id, p), v) :: regs s), 0)
  else (s, 0).

Definition open (s : state) (id _ _ _ : Z) (_ : ps3eye_format) : state * bool :=
  (s, (0 <=? id) && (id <? connected s)).

Definition grab (s : state) (_ : Z) : state * list byte := (s, [x01; x02; x03]).

#[global] Instance driver : Driver state := {|
  drv_init := id;
  drv_uninit := id;
  drv_count_connected := connected;
  drv_open := open;
  drv_close := fun s _ => s;
  drv_grab_frame := grab;
  drv_get_parameter := get;
  drv_set_parameter := set
|}.

(** [n] cameras plugged in, nothing called yet. *)
Definition boot (n : Z) (obedient : bool) : world state :=
  World (mkState n obedient []) [].

End Sim.

(** * Properties *)

(** Closed decidable goals are settled by evaluation. *)
Ltac by_computation := apply (bool_decide_unpack _); vm_compute; exact I.

Arguments py_range : simpl never.
Arguments np_bytes : simpl never.

(** ** Integers at the C boundary *)

Lemma fits_int_spec z : fits_int z = true <-> INT_MIN <= z <= INT_MAX.
Proof. unfold fits_int. rewrite andb_true_iff, !Z.leb_le. tauto. Qed.

Lemma int_wrap_fits z : fits_int (int_wrap z) = true.
Proof.
  apply fits_int_spec. unfold int_wrap, INT_MIN, INT_MAX.
  pose proof (Z.mod_pos_bound (z + 2 ^ 31) (2 ^ 32)). lia.
Qed.

Lemma int_wrap_id z : fits_int z = true -> int_wrap z = z.
Proof.
  intros Hz%fits_int_spec. unfold int_wrap, INT_MIN, INT_MAX in *.
  rewrite Z.mod_small; lia.
Qed.

(** ** Membership *)

Lemma py_in_spec x l :
  py_in x l = true <-> exists e, e ∈ l /\ py_index x = py_index e.
Proof.
  induction l as [|e l IH]; simpl.
  - split; [discriminate | intros (e & He & _); inversion He].
  - rewrite orb_true_iff, IH. unfold py_eq. rewrite Z.eqb_eq. split.
    + intros [Heq | (e' & He' & Heq)]; [exists e | exists e']; split; auto; constructor; auto.
    + intros (e' & [-> | He']%elem_of_cons & Heq); [left | right; exists e']; auto.
Qed.

Lemma py_in_range x n : py_in x (py_range n) = true <-> 0 <= py_index x < n.
Proof.
  rewrite py_in_spec. unfold py_range. split.
  - intros (e & (z & -> & Hz)%list_elem_of_fmap & Heq).
    apply elem_of_seqZ in Hz. simpl in Heq. lia.
  - intros Hx. exists (PInt (py_index x)). split; [|reflexivity].
    apply list_elem_of_fmap. exists (py_index x). split; [reflexivity|].
    apply elem_of_seqZ. lia.
Qed.

Lemma py_in_bools x :
  py_in x [PBool true; PBool false] = true <-> py_index x = 1 \/ py_index x = 0.
Proof.
  simpl. unfold py_eq. simpl. rewrite orb_false_r, orb_true_iff, !Z.eqb_eq. tauto.
Qed.

(** ** The registry *)

Lemma registry_lookup p :
  dict_get _PARAMS p =
  match p with
  | PS3EYE_AUTO_GAIN => Some ("auto_gain", [PBool true; PBool false])
  | PS3EYE_GAIN => Some ("gain", py_range 64)
  | PS3EYE_AUTO_WHITEBALANCE => Some ("auto_whitebalance", [PBool true; PBool false])
  | PS3EYE_AUTO_EXPOSURE => None
  | PS3EYE_EXPOSURE => Some ("exposure", py_range 256)
  | PS3EYE_SHARPNESS => Some ("sharpness", py_range 64)
  | PS3EYE_CONTRAST => Some ("contrast", py_range 256)
  | PS3EYE_BRIGHTNESS => Some ("brightness", py_range 256)
  | PS3EYE_HUE => Some ("hue", py_range 256)
  | PS3EYE_REDBALANCE => Some ("red_balance", py_range 256)
  | PS3EYE_BLUEBALANCE => Some ("blue_balance", py_range 256)
  | PS3EYE_GREENBALANCE => Some ("green_balance", py_range 256)
  | PS3EYE_HFLIP => Some ("hflip", [PBool true; PBool false])
  | PS3EYE_VFLIP => Some ("vflip", [PBool true; PBool false])
  end.
Proof. destruct p; reflexivity. Qed.

(** Every value of every registered domain is a small non-negative
    integer, so it always fits the C [int] parameter. *)
Lemma registry_domain_bounds p name vals v :
  dict_get _PARAMS p = Some (name, vals) ->
  py_in v vals = true ->
  0 <= py_index v < 256.
Proof.
  rewrite registry_lookup. intros Hp Hv.
  destruct p; simplify_eq;
    first [ apply py_in_range in Hv; lia | apply py_in_bools in Hv; lia ].
Qed.

Lemma registry_domain_fits p name vals v :
  dict_get _PARAMS p = Some (name, vals) ->
  py_in v vals = true ->
  fits_int (py_index v) = true.
Proof.
  intros Hp Hv. pose proof (registry_domain_bounds _ _ _ _ Hp Hv).
  apply fits_int_spec. unfold INT_MIN, INT_MAX. lia.
Qed.

(** ** C9: the registry *)

(** C9, as stated: the registry would hold exactly 12 entries with
    auto-exposure left out.  It holds 13. *)
Lemma registry_twelve_entries_refuted :
  ~ (length _PARAMS = 12%nat /\ dict_get _PARAMS PS3EYE_AUTO_EXPOSURE = None).
Proof. intros [Hlen _]. vm_compute in Hlen. discriminate. Qed.

(** C9, amended: the registry holds exactly 13 entries, one for each of
    auto-gain, auto-whitebalance, gain, exposure, sharpness, contrast,
    brightness, hue, red, blue and green balance, horizontal and vertical
    flip, under pairwise distinct keys; auto-exposure is the one control
    of the API that has no entry. *)
Theorem registry_thirteen_entries :
  length _PARAMS = 13%nat /\
  (fun e => (e.1, e.2.1)) <$> _PARAMS =
    [ (PS3EYE_AUTO_GAIN, "auto_gain"); (PS3EYE_AUTO_WHITEBALANCE, "auto_whitebalance");
      (PS3EYE_GAIN, "gain"); (PS3EYE_EXPOSURE, "exposure");
      (PS3EYE_SHARPNESS, "sharpness"); (PS3EYE_CONTRAST, "contrast");
      (PS3EYE_BRIGHTNESS, "brightness"); (PS3EYE_HUE, "hue");
      (PS3EYE_REDBALANCE, "red_balance"); (PS3EYE_BLUEBALANCE, "blue_balance");
      (PS3EYE_GREENBALANCE, "green_balance"); (PS3EYE_HFLIP, "hflip");
      (PS3EYE_VFLIP, "vflip") ] /\
  NoDup (_PARAMS.*1) /\
  (forall p, dict_get _PARAMS p = None <-> p = PS3EYE_AUTO_EXPOSURE).
Proof.
  split; [reflexivity|]. split; [reflexivity|]. split.
  - apply (bool_decide_unpack _). vm_compute. exact I.
  - intros p. rewrite registry_lookup. destruct p; split; congruence.
Qed.

(** ** [CtrlList.__setitem__] *)

Section CtrlListFacts.
Context {D : Type} `{!Driver D}.

Lemma list_setitem_in_range (l : list pyval) pos val :
  - Z.of_nat (length l) <= pos < Z.of_nat (length l) ->
  let i := Z.to_nat (py_slot (Z.of_nat (length l)) pos) in
  list_setitem l pos val = Some (<[i := val]> l) /\ (i < length l)%nat.
Proof.
  intros Hpos i. unfold list_setitem. subst i. unfold py_slot.
  destruct (pos <? 0) eqn:Hneg; [apply Z.ltb_lt in Hneg | apply Z.ltb_ge in Hneg].
  - rewrite (proj2 (Z.leb_le _ _)), (proj2 (Z.ltb_lt _ _)) by lia. split; [reflexivity | lia].
  - rewrite (proj2 (Z.leb_le _ _)), (proj2 (Z.ltb_lt _ _)) by lia. split; [reflexivity | lia].
Qed.

Lemma list_setitem_out_of_range (l : list pyval) pos val :
  ~ (- Z.of_nat (length l) <= pos < Z.of_nat (length l)) ->
  list_setitem l pos val = None.
Proof.
  intros Hpos. unfold list_setitem, py_slot.
  destruct (pos <? 0) eqn:Hneg; [apply Z.ltb_lt in Hneg | apply Z.ltb_ge in Hneg];
    destruct (0 <=? _) eqn:H0; try reflexivity; apply Z.leb_le in H0;
    destruct (_ <? Z.of_nat (length l)) eqn:H1; try reflexivity;
    apply Z.ltb_lt in H1; lia.
Qed.

(** A write whose value passes the membership test: the two driver calls
    are made with the position [pos] itself as the device number, and what
    follows depends on the read-back only. *)
Lemma setitem_accepted (self : CtrlList) pos val (s : world D) :
  py_in val (valid self) = true ->
  fits_int pos = true ->
  fits_int (py_index val) = true ->
  let d1 := (drv_set_parameter (drv s) pos (param_id self) (py_index val)).1 in
  let conf := int_wrap (drv_get_parameter d1 pos (param_id self)) in
  let s1 := World d1 (trace s ++ [ev_set_parameter pos (param_id self) (py_index val);
                                  ev_get_parameter pos (param_id self)]) in
  CtrlList_setitem self pos val s =
    if py_eq (PInt conf) val then
      match list_setitem (items self) pos val with
      | Some l => (Ok (mkCtrlList l (param_id self) (nm self) (valid self)), s1)
      | None => (Raise IndexError, s1)
      end
    else
      (Ok self, World d1 (trace s1 ++ [ev_warn (failed_msg (nm self) (valid self) val)])).
Proof.
  intros Hin Hpos Hval d1 conf s1.
  unfold CtrlList_setitem. rewrite Hin. simpl.
  unfold bind, as_int. rewrite Hpos, Hval. unfold ret. simpl.
  unfold ps3eye_set_parameter. simpl.
  destruct (drv_set_parameter (drv s) pos (param_id self) (py_index val)) as [d r] eqn:Hset.
  subst s1 conf d1. simpl. rewrite <- !app_assoc. simpl.
  destruct (py_eq _ _); simpl.
  - destruct (list_setitem _ _ _); reflexivity.
  - unfold warnings_warn, emit. simpl. rewrite <- !app_assoc. reflexivity.
Qed.

(** Whatever a write does, the channel keeps its control, its name, its
    domain and its number of slots. *)
Lemma CtrlList_setitem_fields (self : CtrlList) pos val (s : world D) self' s' :
  CtrlList_setitem self pos val s = (Ok self', s') ->
  param_id self' = param_id self /\ nm self' = nm self /\ valid self' = valid self /\
  length (items self') = length (items self).
Proof.
  unfold CtrlList_setitem. destruct (py_in val (valid self)); cbn [negb].
  - unfold bind, as_int.
    destruct (fits_int pos); [|discriminate].
    destruct (fits_int (py_index val)); [|discriminate].
    unfold ret, ps3eye_set_parameter. cbn [fst snd].
    destruct (drv_set_parameter _ _ _ _) as [d r]. cbn [fst snd].
    unfold ps3eye_get_parameter. cbn [fst snd drv trace].
    destruct (py_eq _ _); cbn [negb].
    + unfold list_setitem. destruct (_ && _); [|discriminate].
      intros [= <- <-]. cbn [param_id nm valid items]. rewrite length_insert. auto.
    + unfold warnings_warn, emit. intros [= <- <-]. auto.
  - unfold bind, warnings_warn, emit, ret. intros [= <- <-]. auto.
Qed.

(** C4: a value that is not in the control's domain is reported by one
    warning, whose text names the control, its domain and the value; no
    driver call is made at all (so no set-parameter call), the driver
    state, the stored list and so every slot stay as they were, and the
    method returns normally, whatever the position. *)
Theorem setitem_rejects_outside_domain (self : CtrlList) pos val (s : world D) :
  py_in val (valid self) = false ->
  CtrlList_setitem self pos val s =
    (Ok self, World (drv s) (trace s ++ [ev_warn (aborted_msg (nm self) (valid self) val)])) /\
  aborted_msg (nm self) (valid self) val =
    nl +:+ "Parameter adjustment for " +:+ nm self +:+ " aborted." +:+
    nl +:+ "Allowed values for " +:+ nm self +:+ ": " +:+ py_list_str (valid self) +:+
    nl +:+ "Requested value: " +:+ py_str val.
Proof.
  intros Hout. split.
  - unfold CtrlList_setitem. rewrite Hout. reflexivity.
  - reflexivity.
Qed.

(** C3: on a channel of a registered control (as every channel of a
    session is), for a position of the list (counted from either end) and
    a value of the domain, the method makes the set and the get call and
    then: if the read-back differs from the value, it warns, leaves the
    whole list as it was and returns normally; if the read-back equals the
    value, it stores exactly that value in the slot, leaves the other
    slots alone, and returns normally. *)
Theorem setitem_write_then_verify (self : CtrlList) pos val (s : world D) :
  dict_get _PARAMS (param_id self) = Some (nm self, valid self) ->
  py_in val (valid self) = true ->
  fits_int pos = true ->
  - Z.of_nat (length (items self)) <= pos < Z.of_nat (length (items self)) ->
  let d1 := (drv_set_parameter (drv s) pos (param_id self) (py_index val)).1 in
  let conf := int_wrap (drv_get_parameter d1 pos (param_id self)) in
  let calls := [ev_set_parameter pos (param_id self) (py_index val);
                ev_get_parameter pos (param_id self)] in
  let slot := Z.to_nat (py_slot (Z.of_nat (length (items self))) pos) in
  (py_eq (PInt conf) val = false ->
     CtrlList_setitem self pos val s =
       (Ok self,
        World d1 (trace s ++ calls ++ [ev_warn (failed_msg (nm self) (valid self) val)]))) /\
  (py_eq (PInt conf) val = true ->
     exists l,
       CtrlList_setitem self pos val s =
         (Ok (mkCtrlList l (param_id self) (nm self) (valid self)),
          World d1 (trace s ++ calls)) /\
       length l = length (items self) /\
       l !! slot = Some val /\
       forall j, j <> slot -> l !! j = items self !! j).
Proof.
  intros Hreg Hin Hpos Hslot d1 conf calls slot.
  pose proof (registry_domain_fits _ _ _ _ Hreg Hin) as Hval.
  pose proof (setitem_accepted self pos val s Hin Hpos Hval) as Hrun.
  simpl in Hrun. fold d1 in Hrun. fold conf in Hrun.
  split; intros Hconf; rewrite Hconf in Hrun.
  - rewrite Hrun. subst calls. rewrite <- app_assoc. reflexivity.
  - destruct (list_setitem_in_range (items self) pos val Hslot) as [Hset Hlt].
    fold slot in Hset, Hlt. rewrite Hset in Hrun.
    exists (<[slot := val]> (items self)). split; [exact Hrun|].
    split; [apply length_insert|].
    split; [apply list_lookup_insert_eq; exact Hlt|].
    intros j Hj. apply list_lookup_insert_ne. congruence.
Qed.

(** C10: for the four controls whose domain is [[True, False]], the
    integers 0 and 1 pass the membership test, and the write goes on to
    the driver: the first thing it does is the set-parameter call. *)
Theorem bool_domain_accepts_0_and_1 p args pos z (s : world D) :
  p ∈ [PS3EYE_AUTO_GAIN; PS3EYE_AUTO_WHITEBALANCE; PS3EYE_HFLIP; PS3EYE_VFLIP] ->
  z = 0 \/ z = 1 ->
  fits_int pos = true ->
  exists self,
    CtrlList_init args p s = (Ok self, s) /\
    valid self = [PBool true; PBool false] /\
    py_in (PInt z) (valid self) = true /\
    exists r s' rest,
      CtrlList_setitem self pos (PInt z) s = (r, s') /\
      trace s' = trace s ++ ev_set_parameter pos p z :: ev_get_parameter pos p :: rest.
Proof.
  intros Hp Hz Hpos.
  assert (exists name, dict_get _PARAMS p = Some (name, [PBool true; PBool false]))
    as [name Hreg].
  { rewrite registry_lookup.
    repeat (apply elem_of_cons in Hp as [-> | Hp]; [eauto|]). inversion Hp. }
  exists (mkCtrlList args p name [PBool true; PBool false]).
  assert (py_in (PInt z) [PBool true; PBool false] = true) as Hin.
  { apply py_in_bools. simpl. lia. }
  split; [unfold CtrlList_init; rewrite Hreg; reflexivity|].
  split; [reflexivity|]. split; [exact Hin|].
  assert (fits_int (py_index (PInt z)) = true) as Hval.
  { apply fits_int_spec. unfold INT_MIN, INT_MAX. simpl. lia. }
  pose proof (setitem_accepted (mkCtrlList args p name [PBool true; PBool false])
                pos (PInt z) s Hin Hpos Hval) as Hrun.
  simpl in Hrun. rewrite Hrun.
  destruct (py_eq _ _).
  - destruct (list_setitem _ _ _); do 3 eexists; (split; [reflexivity|]); simpl; reflexivity.
  - do 3 eexists. split; [reflexivity|]. simpl. rewrite <- app_assoc. reflexivity.
Qed.

End CtrlListFacts.

(** ** [Camera] *)

Section CameraFacts.
Context {D : Type} `{!Driver D}.

Lemma for_each_app {A S} (body : A -> S -> M D S) l1 l2 st (s : world D) :
  for_each body (l1 ++ l2) st s =
  (let! st' := for_each body l1 st in for_each body l2 st') s.
Proof.
  revert st s. induction l1 as [|x l1 IH]; intros st s; simpl.
  - reflexivity.
  - unfold bind in *. destruct (body x st s) as [[st'|e] s1]; [|reflexivity].
    apply IH.
Qed.

(** *** The loop "init all cameras" *)

Section OpenLoop.
Variables (width height fps0 : Z) (fmt : ps3eye_format) (depth0 count : Z).

Local Abbreviation body := (open_camera (D:=D) width height fps0 fmt depth0 count).
Local Abbreviation open_call := (fun i => ev_open i width height fps0 fmt).

Lemma open_camera_ok i bufs (s : world D) :
  fits_int fps0 = true -> fits_int i = true -> i < count ->
  (drv_open (drv s) i width height fps0 fmt).2 = true ->
  body i bufs s =
    (Ok (<[i := np_bytes (width * height * depth0)]> bufs),
     World (drv_open (drv s) i width height fps0 fmt).1 (trace s ++ [open_call i])).
Proof.
  intros Hf Hi Hlt Hok. unfold open_camera.
  rewrite (proj2 (Z.leb_gt _ _) Hlt).
  unfold bind, as_int. rewrite Hi, Hf. unfold ret. simpl.
  unfold ps3eye_open. destruct (drv_open _ _ _ _ _ _) as [d ok]. simpl in *.
  subst ok. reflexivity.
Qed.

Lemma open_camera_inv i bufs (s : world D) bufs' s' :
  body i bufs s = (Ok bufs', s') ->
  fits_int fps0 = true /\ fits_int i = true /\ i < count /\
  (drv_open (drv s) i width height fps0 fmt).2 = true.
Proof.
  unfold open_camera.
  destruct (count <=? i) eqn:Hc; [discriminate|]. apply Z.leb_gt in Hc.
  unfold bind, as_int.
  destruct (fits_int i); [|discriminate].
  destruct (fits_int fps0); [|discriminate].
  unfold ret. simpl. unfold ps3eye_open.
  destruct (drv_open _ _ _ _ _ _) as [d [|]]; simpl; [auto|discriminate].
Qed.

Lemma open_loop_ok l : forall bufs (s : world D),
  (l <> [] -> fits_int fps0 = true) ->
  Forall (fun i => fits_int i = true /\ i < count) l ->
  opens_succeed width height fps0 fmt l (drv s) = true ->
  for_each body l bufs s =
    (Ok (allocated (width * height * depth0) l bufs),
     World (opened_state width height fps0 fmt l (drv s))
           (trace s ++ (open_call <$> l))).
Proof.
  induction l as [|i l IH]; intros bufs s Hf Hl Hok; simpl.
  - rewrite app_nil_r. destruct s; reflexivity.
  - inversion Hl as [|? ? [Hi Hlt] Hl']; subst. simpl in Hok.
    destruct (drv_open (drv s) i width height fps0 fmt) as [d ok] eqn:Hopen.
    apply andb_true_iff in Hok as [-> Hok].
    assert (fits_int fps0 = true) as Hf' by (apply Hf; discriminate).
    unfold bind. rewrite open_camera_ok; auto; [|rewrite Hopen; reflexivity].
    rewrite Hopen. simpl. rewrite IH; auto. simpl.
    rewrite <- app_assoc. reflexivity.
Qed.

Lemma open_loop_inv l : forall bufs (s : world D) bufs' s',
  for_each body l bufs s = (Ok bufs', s') ->
  (l <> [] -> fits_int fps0 = true) /\
  Forall (fun i => fits_int i = true /\ i < count) l /\
  opens_succeed width height fps0 fmt l (drv s) = true /\
  bufs' = allocated (width * height * depth0) l bufs /\
  s' = World (opened_state width height fps0 fmt l (drv s))
             (trace s ++ (open_call <$> l)).
Proof.
  induction l as [|i l IH]; intros bufs s bufs' s' Hrun; simpl in Hrun.
  - inversion Hrun; subst. simpl. rewrite app_nil_r.
    split; [congruence|]. split; [constructor|]. split; [reflexivity|].
    split; [reflexivity|]. destruct s'; reflexivity.
  - unfold bind in Hrun.
    destruct (body i bufs s) as [[b1|e] s1] eqn:Hstep; [|discriminate].
    destruct (open_camera_inv _ _ _ _ _ Hstep) as (Hf & Hi & Hlt & Hok).
    rewrite open_camera_ok in Hstep by auto. inversion Hstep; subst b1 s1; clear Hstep.
    destruct (IH _ _ _ _ Hrun) as (_ & Hl & Hoks & -> & ->). simpl.
    destruct (drv_open (drv s) i width height fps0 fmt) as [d ok] eqn:Hopen.
    simpl in *. subst ok. rewrite <- app_assoc.
    repeat split; auto.
Qed.

(** The first index at or beyond the connected count stops the loop:
    the driver context is released and the configuration error raised,
    and the indices after it are never looked at. *)
Lemma open_loop_missing pre bad post : forall bufs (s : world D),
  (pre <> [] -> fits_int fps0 = true) ->
  Forall (fun i => fits_int i = true /\ i < count) pre ->
  opens_succeed width height fps0 fmt pre (drv s) = true ->
  count <= bad ->
  for_each body (pre ++ bad :: post) bufs s =
    (Raise (Exception (no_camera_msg bad count)),
     World (drv_uninit (opened_state width height fps0 fmt pre (drv s)))
           (trace s ++ (open_call <$> pre) ++ [ev_uninit])).
Proof.
  intros bufs s Hf Hpre Hok Hbad.
  rewrite for_each_app. unfold bind at 1. rewrite open_loop_ok by auto.
  simpl. unfold bind at 1. unfold open_camera.
  rewrite (proj2 (Z.leb_le _ _) Hbad). unfold bind, ps3eye_uninit, raise. simpl.
  rewrite <- app_assoc. reflexivity.
Qed.

End OpenLoop.

(** *** The buffer table *)

Lemma allocated_lookup n l : forall (bufs : gmap Z (list byte)) i,
  allocated n l bufs !! i = if decide (i ∈ l) then Some (np_bytes n) else bufs !! i.
Proof.
  induction l as [|x l IH]; intros bufs i.
  - simpl. destruct (decide (i ∈ [])) as [Hin|]; [inversion Hin | reflexivity].
  - change (allocated n (x :: l) bufs) with (allocated n l (<[x := np_bytes n]> bufs)).
    rewrite IH. destruct (decide (i ∈ l)) as [Hin|Hnin].
    + rewrite decide_True by (right; exact Hin). reflexivity.
    + destruct (decide (i = x)) as [->|Hne].
      * rewrite lookup_insert_eq, decide_True by left. reflexivity.
      * rewrite lookup_insert_ne by congruence.
        rewrite decide_False; [reflexivity|].
        intros [?|?]%elem_of_cons; contradiction.
Qed.

Lemma allocated_dom n l (bufs : gmap Z (list byte)) :
  dom (allocated n l bufs) = list_to_set l ∪ dom bufs.
Proof.
  apply set_eq. intros i.
  rewrite elem_of_union, elem_of_list_to_set, !elem_of_dom, allocated_lookup.
  destruct (decide (i ∈ l)); [split; eauto | split; [auto | intros [?|?]; [contradiction | auto]]].
Qed.

Lemma allocated_size n l :
  size (allocated n l ∅) = length (remove_dups l).
Proof.
  rewrite <- size_dom, allocated_dom, dom_empty_L, (right_id_L ∅ (∪)).
  rewrite <- (size_list_to_set (C:=gset Z) (remove_dups l)) by apply NoDup_remove_dups.
  f_equal. apply set_eq. intros i.
  rewrite !elem_of_list_to_set, elem_of_remove_dups. reflexivity.
Qed.

Lemma length_np_bytes n : 0 <= n -> Z.of_nat (length (np_bytes n)) = n.
Proof. intros Hn. unfold np_bytes. rewrite length_replicate. lia. Qed.

Lemma length_overwrite buf frame : length (overwrite buf frame) = length buf.
Proof. unfold overwrite. rewrite length_app, length_take, length_drop. lia. Qed.

(** *** The loop "params" *)

Lemma read_parameters_ok p l : forall (s : world D),
  Forall (fun i => fits_int i = true) l ->
  read_parameters p l s =
    (Ok (seed_values (drv s) p l),
     World (drv s) (trace s ++ ((fun i => ev_get_parameter i p) <$> l))).
Proof.
  unfold read_parameters.
  induction l as [|i l IH]; intros s Hl; simpl.
  - rewrite app_nil_r. destruct s; reflexivity.
  - inversion Hl as [|? ? Hi Hl']; subst.
    unfold bind, as_int in *. rewrite Hi. unfold ret. simpl.
    rewrite IH by auto. simpl. rewrite <- app_assoc. reflexivity.
Qed.

Lemma control_loop_ok l ps :
  Forall (fun i => fits_int i = true) l ->
  Forall (fun e => dict_get _PARAMS e.1 = Some e.2) ps ->
  forall attrs (s : world D),
    for_each (make_control l) ps attrs s =
      (Ok (seeded_controls (drv s) l ps attrs),
       World (drv s) (trace s ++ get_calls l ps)).
Proof.
  intros Hl. induction ps as [|e ps IH]; intros Hps attrs s; simpl.
  - unfold get_calls. simpl. rewrite app_nil_r. destruct s; reflexivity.
  - inversion Hps as [|? ? He Hps']; subst.
    destruct e as [p [name vals]]. cbn [fst snd] in He.
    unfold bind. unfold make_control at 1. unfold bind.
    rewrite read_parameters_ok by auto.
    unfold CtrlList_init. rewrite He. unfold ret. cbn [fst snd drv trace].
    rewrite IH by auto. cbn [fst snd drv trace].
    unfold get_calls. rewrite fmap_cons, concat_cons, <- app_assoc. reflexivity.
Qed.

Lemma registry_self_consistent :
  Forall (fun e => dict_get _PARAMS e.1 = Some e.2) _PARAMS.
Proof. repeat constructor. Qed.

Lemma seeded_controls_other (d : D) l ps : forall attrs name,
  name ∉ (fun e => e.2.1) <$> ps ->
  seeded_controls d l ps attrs !! name = attrs !! name.
Proof.
  induction ps as [|e ps IH]; intros attrs name Hname; [reflexivity|].
  change (seeded_controls d l (e :: ps) attrs)
    with (seeded_controls d l ps
            (<[e.2.1 := mkCtrlList (seed_values d e.1 l) e.1 e.2.1 e.2.2]> attrs)).
  rewrite fmap_cons in Hname. apply not_elem_of_cons in Hname as [Hne Hname].
  rewrite IH by auto. apply lookup_insert_ne. congruence.
Qed.

Lemma seeded_controls_lookup (d : D) l ps : forall attrs p name vals,
  NoDup ((fun e => e.2.1) <$> ps) ->
  (p, (name, vals)) ∈ ps ->
  seeded_controls d l ps attrs !! name = Some (mkCtrlList (seed_values d p l) p name vals).
Proof.
  induction ps as [|e ps IH]; intros attrs p name vals Hnd Hin; [inversion Hin|].
  change (seeded_controls d l (e :: ps) attrs)
    with (seeded_controls d l ps
            (<[e.2.1 := mkCtrlList (seed_values d e.1 l) e.1 e.2.1 e.2.2]> attrs)).
  rewrite fmap_cons in Hnd. apply NoDup_cons in Hnd as [Hfresh Hnd].
  apply elem_of_cons in Hin as [<- | Hin].
  - simpl in *. rewrite seeded_controls_other by auto. apply lookup_insert_eq.
  - apply IH; auto.
Qed.

Lemma registry_names_distinct : NoDup ((fun e => e.2.1) <$> _PARAMS).
Proof. apply (bool_decide_unpack _). vm_compute. exact I. Qed.

(** *** [Camera.__init__] *)

(** Up to the first loop: the resolution is looked up, the format and the
    depth are fixed whatever [color] is, the driver context is initialised
    and the connected devices are counted. *)
Lemma Camera_init_unfold a r f c (s : world D) width height :
  dict_get _RESOLUTION r = Some (width, height) ->
  let l := normalize_ids a in
  let d0 := drv_init (drv s) in
  let count := int_wrap (drv_count_connected d0) in
  Camera_init a r f c s =
    (let! bufs := for_each (open_camera width height f PS3EYE_FORMAT_RGB 3 count) l ∅ in
     let! attrs := for_each (make_control l) _PARAMS ∅ in
     emit ev_atexit_register ;;;
     ret (mkCamera l (width, height) width height f PS3EYE_FORMAT_RGB 3 bufs attrs false))
      (World d0 (trace s ++ [ev_init; ev_count_connected])).
Proof.
  intros Hres l d0 count. unfold Camera_init. rewrite Hres.
  destruct c; unfold bind at 1; unfold ps3eye_init; cbn [fst snd drv trace];
    unfold bind at 1; unfold ps3eye_count_connected; cbn [fst snd drv trace];
    rewrite <- app_assoc; reflexivity.
Qed.

Lemma Camera_init_inv a r f c (s : world D) cam s' :
  Camera_init a r f c s = (Ok cam, s') ->
  exists width height,
    dict_get _RESOLUTION r = Some (width, height) /\
    let l := normalize_ids a in
    let d0 := drv_init (drv s) in
    let count := int_wrap (drv_count_connected d0) in
    let d1 := opened_state width height f PS3EYE_FORMAT_RGB l d0 in
    Forall (fun i => fits_int i = true /\ i < count) l /\
    opens_succeed width height f PS3EYE_FORMAT_RGB l d0 = true /\
    cam = mkCamera l (width, height) width height f PS3EYE_FORMAT_RGB 3
                   (allocated (width * height * 3) l ∅)
                   (seeded_controls d1 l _PARAMS ∅) false /\
    s' = World d1 (trace s ++ [ev_init; ev_count_connected] ++
                   ((fun i => ev_open i width height f PS3EYE_FORMAT_RGB) <$> l) ++
                   get_calls l _PARAMS ++ [ev_atexit_register]).
Proof.
  intros Hrun.
  destruct (dict_get _RESOLUTION r) as [[width height]|] eqn:Hres;
    [|unfold Camera_init in Hrun; rewrite Hres in Hrun; discriminate].
  exists width, height. split; [reflexivity|]. intros l d0 count d1.
  rewrite (Camera_init_unfold _ _ _ _ _ _ _ Hres) in Hrun.
  fold l d0 count in Hrun. unfold bind at 1 in Hrun.
  destruct (for_each _ l ∅ _) as [[bufs|e] s1] eqn:Hopen; [|discriminate].
  apply open_loop_inv in Hopen as (_ & Hl & Hok & -> & ->).
  cbn [drv trace] in *.
  unfold bind at 1 in Hrun. rewrite control_loop_ok in Hrun;
    [|eapply Forall_impl; [exact Hl | intros ? []; assumption]
     |apply registry_self_consistent].
  cbn [drv trace] in Hrun. unfold bind, emit, ret in Hrun. cbn [drv trace] in Hrun.
  inversion Hrun; subst cam s'. fold d1.
  rewrite <- !app_assoc. repeat split; auto.
Qed.

Lemma Camera_init_ok a r f c (s : world D) width height :
  dict_get _RESOLUTION r = Some (width, height) ->
  let l := normalize_ids a in
  let d0 := drv_init (drv s) in
  let count := int_wrap (drv_count_connected d0) in
  fits_int f = true ->
  Forall (fun i => fits_int i = true /\ i < count) l ->
  opens_succeed width height f PS3EYE_FORMAT_RGB l d0 = true ->
  exists cam s', Camera_init a r f c s = (Ok cam, s').
Proof.
  intros Hres l d0 count Hf Hl Hok.
  rewrite (Camera_init_unfold _ _ _ _ _ _ _ Hres). fold l d0 count.
  unfold bind at 1. rewrite open_loop_ok by auto. cbn [drv trace].
  unfold bind at 1. rewrite control_loop_ok;
    [|eapply Forall_impl; [exact Hl | intros ? []; assumption]
     |apply registry_self_consistent].
  unfold bind, emit, ret. cbn [drv trace]. eauto.
Qed.

(** The whole run of a successful construction. *)
Lemma Camera_init_run a r f c (s : world D) width height :
  dict_get _RESOLUTION r = Some (width, height) ->
  let l := normalize_ids a in
  let d0 := drv_init (drv s) in
  let count := int_wrap (drv_count_connected d0) in
  let d1 := opened_state width height f PS3EYE_FORMAT_RGB l d0 in
  fits_int f = true ->
  Forall (fun i => fits_int i = true /\ i < count) l ->
  opens_succeed width height f PS3EYE_FORMAT_RGB l d0 = true ->
  Camera_init a r f c s =
    (Ok (mkCamera l (width, height) width height f PS3EYE_FORMAT_RGB 3
                  (allocated (width * height * 3) l ∅)
                  (seeded_controls d1 l _PARAMS ∅) false),
     World d1 (trace s ++ [ev_init; ev_count_connected] ++
               ((fun i => ev_open i width height f PS3EYE_FORMAT_RGB) <$> l) ++
               get_calls l _PARAMS ++ [ev_atexit_register])).
Proof.
  intros Hres l d0 count d1 Hf Hl Hok.
  destruct (Camera_init_ok a r f c s width height Hres Hf Hl Hok) as (cam & s' & Hrun).
  rewrite Hrun.
  apply Camera_init_inv in Hrun as (width' & height' & Hres' & _ & _ & -> & ->).
  rewrite Hres in Hres'. injection Hres' as <- <-. reflexivity.
Qed.

Lemma resolution_cases r width height :
  dict_get _RESOLUTION r = Some (width, height) ->
  (r = RES_SMALL /\ width = 320 /\ height = 240) \/
  (r = RES_LARGE /\ width = 640 /\ height = 480).
Proof.
  unfold _RESOLUTION, dict_get.
  destruct (decide (r = RES_SMALL)); [intros [= <- <-]; auto|].
  destruct (decide (r = RES_LARGE)); [intros [= <- <-]; auto|].
  discriminate.
Qed.

Lemma valid_index_fits i z : 0 <= i < int_wrap z -> fits_int i = true.
Proof.
  intros Hi. pose proof (proj1 (fits_int_spec _) (int_wrap_fits z)).
  apply fits_int_spec. unfold INT_MIN, INT_MAX in *. lia.
Qed.

(** C1, amended: when every requested index is valid (from 0 up to the
    connected count) and every open call succeeds, construction returns a
    session that holds exactly one frame buffer per distinct requested
    index, each of [width * height * 3] bytes; the buffers number N when
    the N requested indices are pairwise distinct. *)
Theorem init_allocates_buffers a r f c (s : world D) width height :
  dict_get _RESOLUTION r = Some (width, height) ->
  let l := normalize_ids a in
  let d0 := drv_init (drv s) in
  let count := int_wrap (drv_count_connected d0) in
  fits_int f = true ->
  Forall (fun i => 0 <= i < count) l ->
  opens_succeed width height f PS3EYE_FORMAT_RGB l d0 = true ->
  exists cam s',
    Camera_init a r f c s = (Ok cam, s') /\
    ids cam = l /\ w cam = width /\ h cam = height /\ depth cam = 3 /\
    dom (buffers cam) = list_to_set l /\
    (forall i, i ∈ l ->
       exists buf, buffers cam !! i = Some buf /\
                   Z.of_nat (length buf) = width * height * 3) /\
    size (buffers cam) = length (remove_dups l) /\
    (NoDup l -> size (buffers cam) = length l).
Proof.
  intros Hres l d0 count Hf Hvalid Hok.
  assert (Forall (fun i => fits_int i = true /\ i < count) l) as Hl.
  { eapply Forall_impl; [exact Hvalid|]. intros i Hi. cbv beta in Hi. split; [|lia].
    eapply valid_index_fits. exact Hi. }
  destruct (Camera_init_ok a r f c s width height Hres Hf Hl Hok) as (cam & s' & Hrun).
  exists cam, s'. split; [exact Hrun|].
  apply Camera_init_inv in Hrun as (width' & height' & Hres' & _ & _ & -> & _).
  rewrite Hres in Hres'. injection Hres' as <- <-. fold l. cbn [ids w h depth buffers].
  split; [reflexivity|]. split; [reflexivity|]. split; [reflexivity|]. split; [reflexivity|].
  split; [rewrite allocated_dom, dom_empty_L, (right_id_L ∅ (∪)); reflexivity|].
  split.
  - intros i Hi. exists (np_bytes (width * height * 3)).
    rewrite allocated_lookup, decide_True by exact Hi. split; [reflexivity|].
    apply length_np_bytes.
    destruct (resolution_cases _ _ _ Hres) as [(_ & -> & ->) | (_ & -> & ->)]; lia.
  - split; [apply allocated_size|].
    intros Hnd. rewrite <- size_dom, allocated_dom, dom_empty_L, (right_id_L ∅ (∪)).
    apply size_list_to_set. exact Hnd.
Qed.

(** C5, amended: take the first requested index that is at or beyond the
    connected count, all indices before it being below the count and
    opened successfully.  Construction fails with the configuration error
    that names this index and the count; the last driver call before the
    error is the uninit; the open calls issued are exactly those of the
    indices before it, so none at all when it comes first, and none for
    it or for any index after it. *)
Theorem init_missing_index pre bad post r f c (s : world D) width height :
  dict_get _RESOLUTION r = Some (width, height) ->
  let d0 := drv_init (drv s) in
  let count := int_wrap (drv_count_connected d0) in
  let calls :=
    [ev_init; ev_count_connected] ++
    ((fun i => ev_open i width height f PS3EYE_FORMAT_RGB) <$> pre) ++ [ev_uninit] in
  (pre <> [] -> fits_int f = true) ->
  Forall (fun i => fits_int i = true /\ i < count) pre ->
  opens_succeed width height f PS3EYE_FORMAT_RGB pre d0 = true ->
  count <= bad ->
  Camera_init (IdsSeq (pre ++ bad :: post)) r f c s =
    (Raise (Exception (no_camera_msg bad count)),
     World (drv_uninit (opened_state width height f PS3EYE_FORMAT_RGB pre d0))
           (trace s ++ calls)) /\
  no_camera_msg bad count =
    "No camera available at index " +:+ pretty bad +:+ "." +:+
    nl +:+ "Available cameras: " +:+ pretty count /\
  List.filter is_open_call calls =
    (fun i => ev_open i width height f PS3EYE_FORMAT_RGB) <$> pre.
Proof.
  intros Hres d0 count calls Hf Hpre Hok Hbad. split; [|split].
  - rewrite (Camera_init_unfold _ _ _ _ _ _ _ Hres). cbn [normalize_ids].
    fold d0 count. unfold bind at 1.
    rewrite open_loop_missing by auto. cbn [drv trace].
    subst calls. rewrite <- !app_assoc. reflexivity.
  - reflexivity.
  - subst calls. cbn [app List.filter is_open_call].
    rewrite List.filter_app. cbn [List.filter is_open_call]. rewrite app_nil_r.
    clear. induction pre as [|i pre IH]; [reflexivity|].
    cbn [fmap list_fmap List.filter is_open_call]. f_equal. exact IH.
Qed.

(** C8: in the session construction returns, every registered control has
    its channel, stored under the control's name, and the channel's slots
    are, device by device in the order of the session's index list, the
    answers of the driver's get-parameter call in the state construction
    leaves the driver in (the get calls do not change it).  The answers
    are stored as they are: nothing compares them with the domain. *)
Theorem init_seeds_controls a r f c (s : world D) cam s' :
  Camera_init a r f c s = (Ok cam, s') ->
  forall p name vals,
    (p, (name, vals)) ∈ _PARAMS ->
    exists ctl,
      controls cam !! name = Some ctl /\
      param_id ctl = p /\ nm ctl = name /\ valid ctl = vals /\
      items ctl = (fun i => PInt (int_wrap (drv_get_parameter (drv s') i p))) <$> ids cam.
Proof.
  intros Hrun p name vals Hin.
  apply Camera_init_inv in Hrun as (width & height & _ & _ & _ & -> & ->).
  cbn [controls ids drv].
  eexists. split; [apply seeded_controls_lookup; [apply registry_names_distinct | exact Hin]|].
  repeat split.
Qed.

(** *** [Camera.read] *)

Local Abbreviation owns_buffer self bufs :=
  (fun i => fits_int i = true /\
            exists buf : list byte, bufs !! i = Some buf /\
              Z.of_nat (length buf) = h self * w self * depth self).

Lemma owns_buffer_transfer self (bufs bufs' : gmap Z (list byte)) l :
  (forall i, length <$> bufs' !! i = length <$> bufs !! i) ->
  Forall (owns_buffer self bufs) l -> Forall (owns_buffer self bufs') l.
Proof.
  intros Hlen Hl. eapply Forall_impl; [exact Hl|].
  intros i (Hi & buf & Hbuf & Hsize).
  split; [exact Hi|]. specialize (Hlen i). rewrite Hbuf in Hlen.
  destruct (bufs' !! i) as [buf'|]; [|discriminate].
  exists buf'. split; [reflexivity|]. simpl in Hlen. injection Hlen as Hlen. lia.
Qed.

Lemma read_frame_ok self i bufs imgs (s : world D) buf :
  fits_int i = true ->
  bufs !! i = Some buf ->
  Z.of_nat (length buf) = h self * w self * depth self ->
  read_frame self i (bufs, imgs) s =
    (Ok (<[i := overwrite buf (drv_grab_frame (drv s) i).2]> bufs,
         imgs ++ [mkArray i [h self; w self; depth self]]),
     World (drv_grab_frame (drv s) i).1 (trace s ++ [ev_grab_frame i])).
Proof.
  intros Hi Hbuf Hsize. unfold read_frame, bind, as_int. rewrite Hi.
  unfold ret. cbn [fst snd]. rewrite Hbuf. unfold ps3eye_grab_frame.
  destruct (drv_grab_frame (drv s) i) as [d frame]. cbn [fst snd].
  rewrite length_overwrite, (proj2 (Z.eqb_eq _ _) Hsize). reflexivity.
Qed.

Lemma read_loop_ok self l : forall bufs imgs (s : world D),
  Forall (owns_buffer self bufs) l ->
  exists bufs' s',
    for_each (read_frame self) l (bufs, imgs) s =
      (Ok (bufs', imgs ++ ((fun i => mkArray i [h self; w self; depth self]) <$> l)), s') /\
    trace s' = trace s ++ (ev_grab_frame <$> l) /\
    (forall i, length <$> bufs' !! i = length <$> bufs !! i).
Proof.
  induction l as [|i l IH]; intros bufs imgs s Hl.
  - exists bufs, s. simpl. rewrite !app_nil_r. auto.
  - inversion Hl as [|? ? (Hi & buf & Hbuf & Hsize) Hl']; subst.
    destruct (drv_grab_frame (drv s) i) as [d frame] eqn:Hgrab.
    set (bufs1 := <[i := overwrite buf frame]> bufs).
    assert (forall j, length <$> bufs1 !! j = length <$> bufs !! j) as Hlen1.
    { intros j. subst bufs1. destruct (decide (j = i)) as [->|Hne].
      - rewrite lookup_insert_eq, Hbuf. simpl. rewrite length_overwrite. reflexivity.
      - rewrite lookup_insert_ne by congruence. reflexivity. }
    destruct (IH bufs1 (imgs ++ [mkArray i [h self; w self; depth self]])
                (World d (trace s ++ [ev_grab_frame i])))
      as (bufs' & s' & Hrun & Htrace & Hlen).
    { eapply owns_buffer_transfer; [exact Hlen1 | exact Hl']. }
    exists bufs', s'. split; [|split].
    + cbn [for_each]. unfold bind at 1.
      rewrite (read_frame_ok _ _ _ _ _ _ Hi Hbuf Hsize), Hgrab. cbn [fst snd].
      fold bufs1. rewrite Hrun, <- app_assoc. reflexivity.
    + rewrite Htrace. cbn [drv trace]. rewrite <- app_assoc. reflexivity.
    + intros j. rewrite Hlen. apply Hlen1.
Qed.

Lemma Camera_read_ok self (s : world D) :
  session_wf self ->
  exists bufs' s',
    Camera_read self s =
      (Ok ((fun i => mkArray i [h self; w self; depth self]) <$> ids self,
           mkCamera (ids self) (resolution self) (w self) (h self) (fps self)
                    (format self) (depth self) bufs' (controls self) (_ended self)),
       s') /\
    trace s' = trace s ++ (ev_grab_frame <$> ids self) /\
    (forall i, length <$> bufs' !! i = length <$> buffers self !! i).
Proof.
  intros Hwf.
  destruct (read_loop_ok self (ids self) (buffers self) [] s Hwf)
    as (bufs' & s' & Hrun & Htrace & Hlen).
  exists bufs', s'. split; [|auto].
  unfold Camera_read, bind. rewrite Hrun. reflexivity.
Qed.

(** *** [Camera.end] *)

Lemma close_loop_ok l : forall (s : world D),
  Forall (fun i => fits_int i = true) l ->
  for_each (fun _id (_ : unit) => let! cid := as_int _id in ps3eye_close cid) l tt s =
    (Ok tt, World (closed_state l (drv s)) (trace s ++ (ev_close <$> l))).
Proof.
  induction l as [|i l IH]; intros s Hl.
  - simpl. rewrite app_nil_r. destruct s; reflexivity.
  - inversion Hl as [|? ? Hi Hl']; subst. simpl.
    unfold bind at 1. unfold bind at 1. unfold as_int. rewrite Hi.
    unfold ret, ps3eye_close. cbn [drv trace]. rewrite IH by auto.
    cbn [drv trace]. rewrite <- app_assoc. reflexivity.
Qed.

Lemma Camera_end_fields self (s : world D) self' s' :
  Camera_end self s = (Ok self', s') ->
  ids self' = ids self /\ buffers self' = buffers self /\
  w self' = w self /\ h self' = h self /\ depth self' = depth self /\
  controls self' = controls self.
Proof.
  unfold Camera_end. destruct (_ended self); simpl.
  - unfold ret. intros [= <- <-]. repeat split.
  - unfold bind.
    destruct (for_each _ (ids self) tt s) as [[[]|e] s1]; [|discriminate].
    unfold ps3eye_uninit, ret. intros [= <- <-]. repeat split.
Qed.

(** *** The session invariant *)

Lemma session_is_wf cam : session (D:=D) cam -> session_wf cam.
Proof.
  induction 1 as [a r f c s cam s' Hrun
                 | cam s imgs cam' s' _ IH Hrun
                 | cam s cam' s' _ IH Hrun
                 | cam name ctl pos val s ctl' s' _ IH _ _].
  - apply Camera_init_inv in Hrun as (width & height & Hres & Hl & _ & -> & _).
    unfold session_wf. cbn [ids buffers w h depth].
    apply Forall_forall. intros i Hi.
    pose proof (proj1 (Forall_forall _ _) Hl i Hi) as [Hfit _].
    split; [exact Hfit|]. exists (np_bytes (width * height * 3)).
    rewrite allocated_lookup, decide_True by exact Hi. split; [reflexivity|].
    rewrite length_np_bytes; [ring|].
    destruct (resolution_cases _ _ _ Hres) as [(_ & -> & ->) | (_ & -> & ->)]; lia.
  - destruct (Camera_read_ok cam s IH) as (bufs' & s0 & Hrun0 & _ & Hlen).
    rewrite Hrun0 in Hrun. injection Hrun as _ <- _.
    unfold session_wf. cbn [ids buffers w h depth].
    eapply owns_buffer_transfer; [exact Hlen | exact IH].
  - apply Camera_end_fields in Hrun as (Hids & Hbufs & Hw & Hh & Hd & _).
    unfold session_wf. rewrite Hids, Hbufs, Hw, Hh, Hd. exact IH.
  - exact IH.
Qed.

Lemma seeded_controls_inv (d : D) l ps : forall attrs name ctl,
  seeded_controls d l ps attrs !! name = Some ctl ->
  attrs !! name = Some ctl \/
  exists e, e ∈ ps /\ ctl = mkCtrlList (seed_values d e.1 l) e.1 e.2.1 e.2.2.
Proof.
  induction ps as [|e ps IH]; intros attrs name ctl Hctl; [left; exact Hctl|].
  change (seeded_controls d l (e :: ps) attrs)
    with (seeded_controls d l ps
            (<[e.2.1 := mkCtrlList (seed_values d e.1 l) e.1 e.2.1 e.2.2]> attrs)) in Hctl.
  apply IH in Hctl as [Hctl | (e' & He' & ->)].
  - destruct (decide (e.2.1 = name)) as [<-|Hne].
    + rewrite lookup_insert_eq in Hctl. injection Hctl as <-.
      right. exists e. split; [left | reflexivity].
    + rewrite lookup_insert_ne in Hctl by exact Hne. left. exact Hctl.
  - right. exists e'. split; [right; exact He' | reflexivity].
Qed.

(** Every channel of every session belongs to a registered control, keeps
    that control's name and domain, and has one slot per entry of the
    session's index list. *)
Lemma session_controls_registered cam :
  session (D:=D) cam ->
  forall name ctl,
    controls cam !! name = Some ctl ->
    dict_get _PARAMS (param_id ctl) = Some (nm ctl, valid ctl) /\
    length (items ctl) = length (ids cam).
Proof.
  induction 1 as [a r f c s cam s' Hrun
                 | cam s imgs cam' s' Hs IH Hrun
                 | cam s cam' s' _ IH Hrun
                 | cam name0 ctl0 pos val s ctl' s' _ IH Hctl0 Hrun];
    intros name ctl Hctl.
  - apply Camera_init_inv in Hrun as (width & height & _ & _ & _ & -> & _).
    cbn [controls ids] in *.
    apply seeded_controls_inv in Hctl as [Hctl | (e & He & ->)].
    + rewrite lookup_empty in Hctl. discriminate.
    + cbn [param_id nm valid items]. split.
      * pose proof (proj1 (Forall_forall _ _) registry_self_consistent e He) as Hreg.
        cbv beta in Hreg. rewrite Hreg. destruct e as [p [n v]]. reflexivity.
      * unfold seed_values. apply length_fmap.
  - destruct (Camera_read_ok cam s (session_is_wf _ Hs)) as (bufs' & s0 & Hrun0 & _).
    rewrite Hrun0 in Hrun. injection Hrun as _ <- _.
    cbn [controls ids] in *. apply (IH name). exact Hctl.
  - apply Camera_end_fields in Hrun as (Hids & _ & _ & _ & _ & Hctls).
    rewrite Hids. rewrite Hctls in Hctl. apply (IH name). exact Hctl.
  - cbn [with_controls controls ids] in *.
    destruct (decide (name0 = name)) as [<-|Hne].
    + rewrite lookup_insert_eq in Hctl. injection Hctl as <-.
      apply CtrlList_setitem_fields in Hrun as (-> & -> & -> & ->).
      apply (IH name0). exact Hctl0.
    + rewrite lookup_insert_ne in Hctl by exact Hne. apply (IH name). exact Hctl.
Qed.

(** C6: on every session, [read] returns normally one array per entry
    of the session's index list, in the order of that list; each array is
    shaped [[h, w, depth]] and is a view of the buffer of its device,
    which holds [h * w * depth] bytes; the driver is asked for one frame
    per entry, in the same order.  The session after the call is a session
    again, so this holds for every call. *)
Theorem read_returns_views cam (s : world D) :
  session cam ->
  exists imgs cam' s',
    Camera_read cam s = (Ok (imgs, cam'), s') /\
    length imgs = length (ids cam) /\
    base <$> imgs = ids cam /\
    Forall (fun a => shape a = [h cam; w cam; depth cam] /\
                     exists buf, buffers cam' !! base a = Some buf /\
                       Z.of_nat (length buf) = h cam * w cam * depth cam) imgs /\
    trace s' = trace s ++ (ev_grab_frame <$> ids cam) /\
    session cam'.
Proof.
  intros Hs. pose proof (session_is_wf _ Hs) as Hwf.
  destruct (Camera_read_ok cam s Hwf) as (bufs' & s' & Hrun & Htrace & Hlen).
  eexists _, _, s'. split; [exact Hrun|].
  split; [apply length_fmap|].
  split; [rewrite <- list_fmap_compose; apply list_fmap_id|].
  split; [|split; [exact Htrace | eapply session_read; eauto]].
  apply Forall_fmap. cbn [buffers].
  eapply Forall_impl; [exact (owns_buffer_transfer _ _ _ _ Hlen Hwf)|].
  intros i (_ & Hbuf). split; [reflexivity | exact Hbuf].
Qed.

(** C7: the first [end] on a session that is not ended issues one close
    call per entry of the index list, in order, then one uninit, marks the
    session ended and returns normally; from then on every [end] returns
    normally and changes nothing: no call is issued, in whatever state the
    driver is by then. *)
Theorem end_is_idempotent cam (s : world D) :
  session cam ->
  _ended cam = false ->
  exists cam1,
    Camera_end cam s =
      (Ok cam1,
       World (drv_uninit (closed_state (ids cam) (drv s)))
             (trace s ++ (ev_close <$> ids cam) ++ [ev_uninit])) /\
    _ended cam1 = true /\
    ids cam1 = ids cam /\
    session cam1 /\
    forall s2 : world D, Camera_end cam1 s2 = (Ok cam1, s2).
Proof.
  intros Hs Hopen. pose proof (session_is_wf _ Hs) as Hwf.
  assert (Forall (fun i => fits_int i = true) (ids cam)) as Hfit.
  { eapply Forall_impl; [exact Hwf | intros ? []; assumption]. }
  set (cam1 := mkCamera (ids cam) (resolution cam) (w cam) (h cam) (fps cam)
                        (format cam) (depth cam) (buffers cam) (controls cam) true).
  assert (Camera_end cam s =
            (Ok cam1,
             World (drv_uninit (closed_state (ids cam) (drv s)))
                   (trace s ++ (ev_close <$> ids cam) ++ [ev_uninit]))) as Hrun.
  { unfold Camera_end. rewrite Hopen. cbn [negb].
    unfold bind at 1. rewrite close_loop_ok by exact Hfit.
    unfold bind, ps3eye_uninit, ret. cbn [drv trace].
    rewrite <- app_assoc. reflexivity. }
  exists cam1. split; [exact Hrun|].
  split; [reflexivity|]. split; [reflexivity|].
  split; [exact (session_end _ _ _ _ Hs Hrun)|].
  intros s2. reflexivity.
Qed.

End CameraFacts.

(** ** Runs on the simulated driver *)

(** The run of a successful construction on the simulated driver. *)
Ltac sim_init_run a r f c s width height :=
  apply (Camera_init_run a r f c s width height);
  [reflexivity | reflexivity | by_computation | reflexivity].

(** C2 at a failing input: two cameras are connected and the session
    manages the second one, [ids = [1]].  The channel [gain] has one slot,
    position 0, which belongs to device 1; the write [cam.gain[0] = 42] is
    accepted and makes its set and get calls on device 0. *)
Theorem setitem_addresses_position_not_device :
  let r := Camera_init (IdsSeq [1]) RES_SMALL 60 true (Sim.boot 2 true) in
  match r.1 with
  | Ok cam =>
      ids cam !! 0%nat = Some 1 /\
      match controls cam !! "gain" with
      | Some gain =>
          py_in (PInt 42) (valid gain) = true /\
          trace (CtrlList_setitem gain 0 (PInt 42) (World (drv r.2) [])).2 =
            [ev_set_parameter 0 PS3EYE_GAIN 42; ev_get_parameter 0 PS3EYE_GAIN]
      | None => False
      end
  | Raise _ => False
  end.
Proof. vm_compute. repeat split. Qed.

(** C1, as stated, fails when an index is requested twice: with one
    camera connected, [Camera([0, 0])] opens device 0 twice and returns a
    session whose two requested indices, both valid, share one buffer. *)
Lemma init_duplicate_index_one_buffer :
  exists cam s',
    Camera_init (IdsSeq [0; 0]) RES_SMALL 60 true (Sim.boot 1 true) = (Ok cam, s') /\
    Forall (fun i => 0 <= i < 1) (ids cam) /\
    length (ids cam) = 2%nat /\
    size (buffers cam) = 1%nat /\
    size (buffers cam) <> length (ids cam).
Proof.
  eexists _, _. split.
  - apply (Camera_init_run (IdsSeq [0; 0]) RES_SMALL 60 true (Sim.boot 1 true) 320 240);
      [reflexivity | reflexivity | by_computation | reflexivity].
  - cbn [ids buffers normalize_ids]. split; [by_computation|]. split; [reflexivity|].
    rewrite allocated_size. split; [reflexivity | discriminate].
Qed.

(** C5, as stated, fails when a valid index comes before the missing one:
    with one camera connected, [Camera([0, 5])] raises the configuration
    error for index 5 after it has opened device 0. *)
Lemma init_missing_index_after_open :
  let s := Sim.boot 1 true in
  let r := Camera_init (IdsSeq [0; 5]) RES_SMALL 60 true s in
  int_wrap (drv_count_connected (drv_init (drv s))) <= 5 /\
  r.1 = Raise (Exception (no_camera_msg 5 1)) /\
  List.filter is_open_call (trace r.2) = [ev_open 0 320 240 60 PS3EYE_FORMAT_RGB] /\
  List.filter is_open_call (trace r.2) <> [].
Proof. vm_compute. repeat split; discriminate. Qed.

(** ** The theorems at concrete inputs *)

(** The scenario of the specification: [auto_gain[0] = 2] is rejected. *)
Lemma setitem_rejects_outside_domain_witness :
  let self := mkCtrlList [PInt 0] PS3EYE_AUTO_GAIN "auto_gain" [PBool true; PBool false] in
  py_in (PInt 2) (valid self) = false /\
  CtrlList_setitem self 0 (PInt 2) (Sim.boot 1 true) =
    (Ok self,
     World (drv (Sim.boot 1 true))
           [ev_warn (aborted_msg "auto_gain" [PBool true; PBool false] (PInt 2))]).
Proof.
  intros self. split; [reflexivity|].
  exact (proj1 (setitem_rejects_outside_domain self 0 (PInt 2) (Sim.boot 1 true) eq_refl)).
Defined.

(** [gain[0] = 42] on firmware that takes the value, and on firmware that
    silently keeps the old one. *)
Lemma setitem_write_then_verify_witness :
  let self := mkCtrlList [PInt 0] PS3EYE_GAIN "gain" (py_range 64) in
  dict_get _PARAMS (param_id self) = Some (nm self, valid self) /\
  py_in (PInt 42) (valid self) = true /\
  fits_int 0 = true /\
  - Z.of_nat (length (items self)) <= 0 < Z.of_nat (length (items self)) /\
  (exists l,
     (CtrlList_setitem self 0 (PInt 42) (Sim.boot 1 true)).1 =
       Ok (mkCtrlList l PS3EYE_GAIN "gain" (py_range 64)) /\
     l !! 0%nat = Some (PInt 42)) /\
  (CtrlList_setitem self 0 (PInt 42) (Sim.boot 1 false)).1 = Ok self.
Proof.
  intros self.
  assert (dict_get _PARAMS (param_id self) = Some (nm self, valid self)) as H1
    by reflexivity.
  assert (py_in (PInt 42) (valid self) = true) as H2 by (vm_compute; reflexivity).
  assert (fits_int 0 = true) as H3 by reflexivity.
  assert (- Z.of_nat (length (items self)) <= 0 < Z.of_nat (length (items self))) as H4
    by (simpl; lia).
  split; [exact H1|]. split; [exact H2|]. split; [exact H3|]. split; [exact H4|].
  split.
  - destruct (setitem_write_then_verify self 0 (PInt 42) (Sim.boot 1 true) H1 H2 H3 H4)
      as [_ Hcommit].
    destruct (Hcommit eq_refl) as (l & Hrun & _ & Hslot & _).
    exists l. rewrite Hrun. split; [reflexivity | exact Hslot].
  - destruct (setitem_write_then_verify self 0 (PInt 42) (Sim.boot 1 false) H1 H2 H3 H4)
      as [Hkeep _].
    rewrite (Hkeep eq_refl). reflexivity.
Defined.

Lemma bool_domain_accepts_0_and_1_witness :
  PS3EYE_AUTO_GAIN ∈
    [PS3EYE_AUTO_GAIN; PS3EYE_AUTO_WHITEBALANCE; PS3EYE_HFLIP; PS3EYE_VFLIP] /\
  (1 = 0 \/ 1 = 1) /\
  fits_int 0 = true /\
  exists self,
    CtrlList_init [PInt 0] PS3EYE_AUTO_GAIN (Sim.boot 1 true) = (Ok self, Sim.boot 1 true) /\
    py_in (PInt 1) (valid self) = true /\
    exists r s' rest,
      CtrlList_setitem self 0 (PInt 1) (Sim.boot 1 true) = (r, s') /\
      trace s' = ev_set_parameter 0 PS3EYE_AUTO_GAIN 1 ::
                 ev_get_parameter 0 PS3EYE_AUTO_GAIN :: rest.
Proof.
  assert (PS3EYE_AUTO_GAIN ∈
            [PS3EYE_AUTO_GAIN; PS3EYE_AUTO_WHITEBALANCE; PS3EYE_HFLIP; PS3EYE_VFLIP]) as H1
    by left.
  assert (1 = 0 \/ 1 = 1) as H2 by (right; reflexivity).
  split; [exact H1|]. split; [exact H2|]. split; [reflexivity|].
  destruct (bool_domain_accepts_0_and_1 PS3EYE_AUTO_GAIN [PInt 0] 0 1 (Sim.boot 1 true)
              H1 H2 eq_refl)
    as (self & Hinit & _ & Hin & r & s' & rest & Hrun & Htrace).
  exists self. split; [exact Hinit|]. split; [exact Hin|].
  exists r, s', rest. split; [exact Hrun | exact Htrace].
Defined.

(** Two cameras, both requested, small colour frames: two buffers of
    [320 * 240 * 3 = 230400] bytes. *)
Lemma init_allocates_buffers_witness :
  let s := Sim.boot 2 true in
  let count := int_wrap (drv_count_connected (drv_init (drv s))) in
  dict_get _RESOLUTION RES_SMALL = Some (320, 240) /\
  fits_int 60 = true /\
  Forall (fun i => 0 <= i < count) [0; 1] /\
  opens_succeed 320 240 60 PS3EYE_FORMAT_RGB [0; 1] (drv_init (drv s)) = true /\
  exists cam s',
    Camera_init (IdsSeq [0; 1]) RES_SMALL 60 true s = (Ok cam, s') /\
    size (buffers cam) = 2%nat /\
    forall i, i ∈ [0; 1] ->
      exists buf, buffers cam !! i = Some buf /\ Z.of_nat (length buf) = 230400.
Proof.
  intros s count.
  assert (Forall (fun i => 0 <= i < count) [0; 1]) as Hvalid by by_computation.
  assert (opens_succeed 320 240 60 PS3EYE_FORMAT_RGB [0; 1] (drv_init (drv s)) = true)
    as Hok by reflexivity.
  split; [reflexivity|]. split; [reflexivity|]. split; [exact Hvalid|]. split; [exact Hok|].
  destruct (init_allocates_buffers (IdsSeq [0; 1]) RES_SMALL 60 true s 320 240
              eq_refl eq_refl Hvalid Hok)
    as (cam & s' & Hrun & _ & _ & _ & _ & _ & Hbufs & _ & Hsize).
  exists cam, s'. split; [exact Hrun|]. split.
  - rewrite Hsize; [reflexivity|]. by_computation.
  - exact Hbufs.
Defined.

(** One camera; indices 0, 5 and 7 are requested. *)
Lemma init_missing_index_witness :
  let s := Sim.boot 1 true in
  let count := int_wrap (drv_count_connected (drv_init (drv s))) in
  dict_get _RESOLUTION RES_SMALL = Some (320, 240) /\
  Forall (fun i => fits_int i = true /\ i < count) [0] /\
  opens_succeed 320 240 60 PS3EYE_FORMAT_RGB [0] (drv_init (drv s)) = true /\
  count <= 5 /\
  (Camera_init (IdsSeq [0; 5; 7]) RES_SMALL 60 true s).1 =
    Raise (Exception (no_camera_msg 5 1)).
Proof.
  intros s count.
  assert (Forall (fun i => fits_int i = true /\ i < count) [0]) as Hpre by by_computation.
  assert (opens_succeed 320 240 60 PS3EYE_FORMAT_RGB [0] (drv_init (drv s)) = true)
    as Hok by reflexivity.
  assert (count <= 5) as Hbad by by_computation.
  split; [reflexivity|]. split; [exact Hpre|]. split; [exact Hok|]. split; [exact Hbad|].
  destruct (init_missing_index [0] 5 [7] RES_SMALL 60 true s 320 240
              eq_refl (fun _ => eq_refl) Hpre Hok Hbad) as (Hrun & _ & _).
  change ([0] ++ 5 :: [7]) with [0; 5; 7] in Hrun. rewrite Hrun. reflexivity.
Defined.

(** The scenario of the specification: one camera, [Camera([0])] with
    small colour frames; [read] returns one view shaped [[240, 320, 3]]. *)
Lemma read_returns_views_witness :
  exists cam s0,
    Camera_init (IdsInt 0) RES_SMALL 60 true (Sim.boot 1 true) = (Ok cam, s0) /\
    session (D:=Sim.state) cam /\
    exists imgs cam' s',
      Camera_read cam s0 = (Ok (imgs, cam'), s') /\
      base <$> imgs = [0] /\
      Forall (fun a => shape a = [240; 320; 3]) imgs.
Proof.
  eexists _, _. split.
  - apply (Camera_init_run (IdsInt 0) RES_SMALL 60 true (Sim.boot 1 true) 320 240);
      [reflexivity | reflexivity | by_computation | reflexivity].
  - match goal with |- session ?c /\ _ => assert (session (D:=Sim.state) c) as Hs end.
    { eapply session_init.
      apply (Camera_init_run (IdsInt 0) RES_SMALL 60 true (Sim.boot 1 true) 320 240);
        [reflexivity | reflexivity | by_computation | reflexivity]. }
    split; [exact Hs|].
    match goal with |- context [Camera_read ?c ?s0] =>
      destruct (read_returns_views c s0 Hs) as (imgs & cam' & s' & Hrun & _ & Hbase & Hshape & _)
    end.
    exists imgs, cam', s'. split; [exact Hrun|]. split; [exact Hbase|].
    eapply Forall_impl; [exact Hshape|]. intros a [Ha _]. exact Ha.
Defined.

(** The same session, ended twice. *)
Lemma end_is_idempotent_witness :
  exists cam s0,
    Camera_init (IdsInt 0) RES_SMALL 60 true (Sim.boot 1 true) = (Ok cam, s0) /\
    session (D:=Sim.state) cam /\
    _ended cam = false /\
    exists cam1 s1,
      Camera_end cam s0 = (Ok cam1, s1) /\
      trace s1 = trace s0 ++ [ev_close 0; ev_uninit] /\
      Camera_end cam1 s1 = (Ok cam1, s1).
Proof.
  eexists _, _. split.
  - apply (Camera_init_run (IdsInt 0) RES_SMALL 60 true (Sim.boot 1 true) 320 240);
      [reflexivity | reflexivity | by_computation | reflexivity].
  - match goal with |- session ?c /\ _ => assert (session (D:=Sim.state) c) as Hs end.
    { eapply session_init.
      apply (Camera_init_run (IdsInt 0) RES_SMALL 60 true (Sim.boot 1 true) 320 240);
        [reflexivity | reflexivity | by_computation | reflexivity]. }
    split; [exact Hs|]. split; [reflexivity|].
    match goal with |- context [Camera_end ?c ?s0] =>
      destruct (end_is_idempotent c s0 Hs eq_refl) as (cam1 & Hrun & _ & _ & _ & Hagain)
    end.
    eexists cam1, _. split; [exact Hrun|]. split; [reflexivity | apply Hagain].
Defined.

(** A camera whose gain register reads 999 when the session is built: the
    channel is seeded with 999 although 999 is not in the domain. *)
Lemma init_seeds_controls_witness :
  let s := World (Sim.mkState 1 true [((0, PS3EYE_GAIN), 999)]) [] in
  exists cam s',
    Camera_init (IdsInt 0) RES_SMALL 60 true s = (Ok cam, s') /\
    exists ctl,
      controls cam !! "gain" = Some ctl /\
      items ctl = [PInt 999] /\
      py_in (PInt 999) (valid ctl) = false.
Proof.
  intros s.
  assert (Forall (fun i => fits_int i = true /\
                           i < int_wrap (drv_count_connected (drv_init (drv s)))) [0])
    as Hl by by_computation.
  pose proof (Camera_init_run (IdsInt 0) RES_SMALL 60 true s 320 240
                eq_refl eq_refl Hl eq_refl) as Hrun.
  eexists _, _. split; [exact Hrun|].
  destruct (init_seeds_controls _ _ _ _ _ _ _ Hrun PS3EYE_GAIN "gain" (py_range 64))
    as (ctl & Hctl & _ & _ & Hvalid & Hitems).
  { by_computation. }
  exists ctl. split; [exact Hctl|]. split.
  - rewrite Hitems. reflexivity.
  - rewrite Hvalid. vm_compute. reflexivity.
Defined.

(** * Further properties of the module *)

(** ** [CtrlList.__setitem__]: positions out of range *)

Section CtrlListEdges.
Context {D : Type} `{!Driver D}.

(** X1: the domain of every registered control is an initial segment of the
    naturals as far as the membership test can tell: a value is accepted
    exactly when the integer it denotes is at least 0 and below the number
    of values listed.  So [True] and [False] are accepted by the integer
    controls (as 1 and 0), and nothing negative is ever accepted. *)
Theorem registry_accepts_iff p name vals v :
  dict_get _PARAMS p = Some (name, vals) ->
  py_in v vals = true <-> 0 <= py_index v < Z.of_nat (length vals).
Proof.
  rewrite registry_lookup. intros Hp.
  destruct p; simplify_eq;
    first [ rewrite py_in_range; unfold py_range;
            rewrite length_fmap, length_seqZ; lia
          | rewrite py_in_bools; cbn [length]; lia ].
Qed.

(** X2: a position that does not fit a C [int] stops an otherwise acceptable
    write before the driver is called: [OverflowError], nothing changed,
    no warning. *)
Theorem setitem_position_overflow (self : CtrlList) pos val (s : world D) :
  py_in val (valid self) = true ->
  fits_int pos = false ->
  CtrlList_setitem self pos val s = (Raise OverflowError, s).
Proof.
  intros Hin Hpos. unfold CtrlList_setitem. rewrite Hin. cbn [negb].
  unfold bind, as_int. rewrite Hpos. reflexivity.
Qed.

(** X3: a position outside the list is noticed only at the very end.  For a
    value of the domain the set and get calls are made first, on device
    [pos]; if the read-back equals the value the method then raises
    [IndexError], the hardware already written; if the read-back differs
    it warns and returns normally, as for a position of the list. *)
Theorem setitem_position_outside_list (self : CtrlList) pos val (s : world D) :
  dict_get _PARAMS (param_id self) = Some (nm self, valid self) ->
  py_in val (valid self) = true ->
  fits_int pos = true ->
  ~ (- Z.of_nat (length (items self)) <= pos < Z.of_nat (length (items self))) ->
  let d1 := (drv_set_parameter (drv s) pos (param_id self) (py_index val)).1 in
  let conf := int_wrap (drv_get_parameter d1 pos (param_id self)) in
  let calls := [ev_set_parameter pos (param_id self) (py_index val);
                ev_get_parameter pos (param_id self)] in
  (py_eq (PInt conf) val = true ->
     CtrlList_setitem self pos val s = (Raise IndexError, World d1 (trace s ++ calls))) /\
  (py_eq (PInt conf) val = false ->
     CtrlList_setitem self pos val s =
       (Ok self,
        World d1 (trace s ++ calls ++ [ev_warn (failed_msg (nm self) (valid self) val)]))).
Proof.
  intros Hreg Hin Hpos Hout d1 conf calls.
  pose proof (registry_domain_fits _ _ _ _ Hreg Hin) as Hval.
  pose proof (setitem_accepted self pos val s Hin Hpos Hval) as Hrun.
  cbv zeta in Hrun. fold d1 in Hrun. fold conf in Hrun.
  split; intros Hconf; rewrite Hconf in Hrun.
  - rewrite (list_setitem_out_of_range _ _ _ Hout) in Hrun. exact Hrun.
  - rewrite Hrun. cbn [trace]. subst calls. rewrite <- app_assoc. reflexivity.
Qed.

End CtrlListEdges.

Lemma registry_accepts_iff_witness :
  dict_get _PARAMS PS3EYE_GAIN = Some ("gain", py_range 64) /\
  (py_in (PBool true) (py_range 64) = true <->
   0 <= py_index (PBool true) < Z.of_nat (length (py_range 64))).
Proof.
  split; [reflexivity|].
  exact (registry_accepts_iff PS3EYE_GAIN "gain" (py_range 64) (PBool true) eq_refl).
Defined.

Lemma setitem_position_overflow_witness :
  let self := mkCtrlList [PInt 0] PS3EYE_GAIN "gain" (py_range 64) in
  py_in (PInt 1) (valid self) = true /\
  fits_int (2 ^ 31) = false /\
  CtrlList_setitem self (2 ^ 31) (PInt 1) (Sim.boot 1 true) =
    (Raise OverflowError, Sim.boot 1 true).
Proof.
  intros self.
  assert (py_in (PInt 1) (valid self) = true) as H1 by (vm_compute; reflexivity).
  split; [exact H1|]. split; [reflexivity|].
  exact (setitem_position_overflow self (2 ^ 31) (PInt 1) (Sim.boot 1 true) H1 eq_refl).
Defined.

(** Two cameras, a session on the first: [cam.gain[1] = 42] sets the gain
    of the second camera and then raises [IndexError]. *)
Lemma setitem_position_outside_list_witness :
  let self := mkCtrlList [PInt 0] PS3EYE_GAIN "gain" (py_range 64) in
  dict_get _PARAMS (param_id self) = Some (nm self, valid self) /\
  py_in (PInt 42) (valid self) = true /\
  fits_int 1 = true /\
  ~ (- Z.of_nat (length (items self)) <= 1 < Z.of_nat (length (items self))) /\
  (CtrlList_setitem self 1 (PInt 42) (Sim.boot 2 true)).1 = Raise IndexError /\
  trace (CtrlList_setitem self 1 (PInt 42) (Sim.boot 2 true)).2 =
    [ev_set_parameter 1 PS3EYE_GAIN 42; ev_get_parameter 1 PS3EYE_GAIN].
Proof.
  intros self.
  assert (dict_get _PARAMS (param_id self) = Some (nm self, valid self)) as H1
    by reflexivity.
  assert (py_in (PInt 42) (valid self) = true) as H2 by (vm_compute; reflexivity).
  assert (~ (- Z.of_nat (length (items self)) <= 1 < Z.of_nat (length (items self))))
    as H4 by (simpl; lia).
  split; [exact H1|]. split; [exact H2|]. split; [reflexivity|]. split; [exact H4|].
  destruct (setitem_position_outside_list self 1 (PInt 42) (Sim.boot 2 true)
              H1 H2 eq_refl H4) as [Hraise _].
  rewrite (Hraise eq_refl). split; reflexivity.
Defined.

(** ** [Camera.__init__]: ways to fail and ways to succeed *)

Section CameraEdges.
Context {D : Type} `{!Driver D}.

Lemma filter_all_false {A} (P : A -> bool) l :
  Forall (fun x => P x = false) l -> List.filter P l = [].
Proof.
  induction 1 as [|x l Hx _ IH]; [reflexivity|].
  cbn [List.filter]. rewrite Hx. exact IH.
Qed.

Lemma filter_all_true {A} (P : A -> bool) l :
  Forall (fun x => P x = true) l -> List.filter P l = l.
Proof.
  induction 1 as [|x l Hx _ IH]; [reflexivity|].
  cbn [List.filter]. rewrite Hx, IH. reflexivity.
Qed.

Lemma open_calls_are_opens width height f fmt (l : list Z) :
  Forall (fun ev => is_open_call ev = true)
         ((fun i => ev_open i width height f fmt) <$> l).
Proof. apply Forall_fmap, Forall_true. reflexivity. Qed.

Lemma get_calls_are_gets l ps : Forall (fun ev => is_get_call ev = true) (get_calls l ps).
Proof.
  unfold get_calls. induction ps as [|e ps IH]; [constructor|].
  rewrite fmap_cons, concat_cons. apply Forall_app. split; [|exact IH].
  apply Forall_fmap, Forall_true. reflexivity.
Qed.

Lemma length_get_calls l ps : length (get_calls l ps) = (length ps * length l)%nat.
Proof.
  unfold get_calls. induction ps as [|e ps IH]; [reflexivity|].
  rewrite fmap_cons, concat_cons, length_app, length_fmap, IH. reflexivity.
Qed.

(** The open call of [bad] reports failure after the devices of [pre]
    were opened: the loop stops with the device-open error, and that is
    all it does. *)
Lemma open_loop_open_fails width height fps0 fmt depth0 count pre bad post :
  forall bufs (s : world D),
  fits_int fps0 = true ->
  Forall (fun i => fits_int i = true /\ i < count) pre ->
  opens_succeed width height fps0 fmt pre (drv s) = true ->
  fits_int bad = true -> bad < count ->
  (drv_open (opened_state width height fps0 fmt pre (drv s))
            bad width height fps0 fmt).2 = false ->
  for_each (open_camera width height fps0 fmt depth0 count) (pre ++ bad :: post) bufs s =
    (Raise (Exception (open_failed_msg bad)),
     World (drv_open (opened_state width height fps0 fmt pre (drv s))
                     bad width height fps0 fmt).1
           (trace s ++ ((fun i => ev_open i width height fps0 fmt) <$> pre) ++
            [ev_open bad width height fps0 fmt])).
Proof.
  intros bufs s Hf Hpre Hok Hbad Hlt Hfail.
  rewrite for_each_app. unfold bind at 1. rewrite open_loop_ok by auto.
  cbn [for_each]. unfold bind at 1. unfold open_camera.
  rewrite (proj2 (Z.leb_gt _ _) Hlt). unfold bind, as_int. rewrite Hbad, Hf.
  unfold ret, ps3eye_open. cbn [drv trace].
  destruct (drv_open _ bad width height fps0 fmt) as [d ok]. cbn [fst snd] in *.
  subst ok. cbn [negb]. unfold raise. rewrite <- app_assoc. reflexivity.
Qed.

(** Every way the loop "init all cameras" can raise. *)
Lemma open_loop_raise_inv width height fps0 fmt depth0 count l :
  forall bufs (s : world D) e s',
  for_each (open_camera width height fps0 fmt depth0 count) l bufs s = (Raise e, s') ->
  exists pre bad post,
    l = pre ++ bad :: post /\
    Forall (fun i => fits_int i = true /\ i < count) pre /\
    opens_succeed width height fps0 fmt pre (drv s) = true /\
    let d := opened_state width height fps0 fmt pre (drv s) in
    let tr := trace s ++ ((fun i => ev_open i width height fps0 fmt) <$> pre) in
    (count <= bad /\ e = Exception (no_camera_msg bad count) /\
     s' = World (drv_uninit d) (tr ++ [ev_uninit])) \/
    (bad < count /\ (fits_int bad = false \/ fits_int fps0 = false) /\
     e = OverflowError /\ s' = World d tr) \/
    (bad < count /\ fits_int bad = true /\ fits_int fps0 = true /\
     (drv_open d bad width height fps0 fmt).2 = false /\
     e = Exception (open_failed_msg bad) /\
     s' = World (drv_open d bad width height fps0 fmt).1
                (tr ++ [ev_open bad width height fps0 fmt])).
Proof.
  induction l as [|i l IH]; intros bufs s e s' Hrun; [discriminate|].
  cbn [for_each] in Hrun. unfold bind in Hrun.
  destruct (open_camera width height fps0 fmt depth0 count i bufs s)
    as [[b1|e1] s1] eqn:Hstep.
  - destruct (open_camera_inv _ _ _ _ _ _ _ _ _ _ _ Hstep) as (Hf & Hi & Hlt & Hok).
    rewrite open_camera_ok in Hstep by auto. injection Hstep as <- <-.
    destruct (IH _ _ _ _ Hrun) as (pre & bad & post & -> & Hpre & Hoks & Hcases).
    exists (i :: pre), bad, post. split; [reflexivity|].
    split; [constructor; auto|]. split.
    + cbn [opens_succeed]. destruct (drv_open (drv s) i width height fps0 fmt) as [d ok].
      cbn [fst snd drv] in *. subst ok. exact Hoks.
    + cbn [opened_state fmap list_fmap drv trace fst snd] in *.
      rewrite <- ?app_assoc in Hcases. rewrite <- ?app_assoc.
      cbn [app] in *. exact Hcases.
  - injection Hrun as <- <-. exists [], i, l. split; [reflexivity|].
    split; [constructor|]. split; [reflexivity|].
    cbn [opened_state fmap list_fmap]. rewrite app_nil_r.
    unfold open_camera in Hstep.
    destruct (count <=? i) eqn:Hc; [apply Z.leb_le in Hc | apply Z.leb_gt in Hc].
    + left. unfold bind, ps3eye_uninit, raise in Hstep. injection Hstep as <- <-. auto.
    + right. unfold bind, as_int in Hstep.
      destruct (fits_int i) eqn:Hi;
        [|left; unfold raise in Hstep; injection Hstep as <- <-; destruct s; auto].
      destruct (fits_int fps0) eqn:Hf;
        [|left; unfold raise, ret in Hstep; injection Hstep as <- <-; destruct s; auto].
      right. unfold ret, ps3eye_open in Hstep. cbn [fst snd] in Hstep.
      destruct (drv_open (drv s) i width height fps0 fmt) as [d [|]];
        cbn [negb] in Hstep; [discriminate|].
      unfold raise in Hstep. injection Hstep as <- <-. cbn [fst snd]. auto 10.
Qed.

(** X5: a resolution other than [RES_SMALL] and [RES_LARGE] is a missing key
    of [_RESOLUTION]: construction raises [KeyError] before the driver is
    touched, so the driver context is not even initialised. *)
Theorem init_unsupported_resolution a r f c (s : world D) :
  r <> RES_SMALL -> r <> RES_LARGE ->
  Camera_init a r f c s = (Raise KeyError, s).
Proof.
  intros H0 H1. unfold Camera_init, _RESOLUTION, dict_get.
  rewrite !decide_False by assumption. reflexivity.
Qed.

(** X6: the [color] flag has no effect: whatever it is, the session is opened
    in RGB with 3 bytes per pixel, and the opposite flag gives the same
    session after the same driver calls. *)
Theorem init_ignores_color a r f c (s : world D) cam s' :
  Camera_init a r f c s = (Ok cam, s') ->
  format cam = PS3EYE_FORMAT_RGB /\ depth cam = 3 /\
  Camera_init a r f (negb c) s = (Ok cam, s').
Proof.
  intros Hrun.
  assert (Camera_init a r f (negb c) s = Camera_init a r f c s) as Hflip
    by (destruct c; reflexivity).
  rewrite Hflip. split; [|split; [|exact Hrun]].
  - apply Camera_init_inv in Hrun as (? & ? & _ & _ & _ & -> & _). reflexivity.
  - apply Camera_init_inv in Hrun as (? & ? & _ & _ & _ & -> & _). reflexivity.
Qed.

(** X7: when an open call reports failure, construction raises the
    device-open error naming that index, and stops there: the devices
    opened before stay open and the driver context stays initialised (no
    close and no uninit call), unlike on the missing-index path.  Any
    index below the count takes this path, a negative one included. *)
Theorem init_open_failure pre bad post r f c (s : world D) width height :
  dict_get _RESOLUTION r = Some (width, height) ->
  let d0 := drv_init (drv s) in
  let count := int_wrap (drv_count_connected d0) in
  let d1 := opened_state width height f PS3EYE_FORMAT_RGB pre d0 in
  let calls :=
    [ev_init; ev_count_connected] ++
    ((fun i => ev_open i width height f PS3EYE_FORMAT_RGB) <$> pre) ++
    [ev_open bad width height f PS3EYE_FORMAT_RGB] in
  fits_int f = true ->
  Forall (fun i => fits_int i = true /\ i < count) pre ->
  opens_succeed width height f PS3EYE_FORMAT_RGB pre d0 = true ->
  fits_int bad = true -> bad < count ->
  (drv_open d1 bad width height f PS3EYE_FORMAT_RGB).2 = false ->
  Camera_init (IdsSeq (pre ++ bad :: post)) r f c s =
    (Raise (Exception (open_failed_msg bad)),
     World (drv_open d1 bad width height f PS3EYE_FORMAT_RGB).1 (trace s ++ calls)) /\
  List.filter is_uninit_call calls = [] /\
  List.filter is_close_call calls = [].
Proof.
  intros Hres d0 count d1 calls Hf Hpre Hok Hbad Hlt Hfail. split; [|split].
  - rewrite (Camera_init_unfold _ _ _ _ _ _ _ Hres). cbn [normalize_ids].
    fold d0 count. unfold bind at 1.
    rewrite open_loop_open_fails by auto. cbn [drv trace].
    subst calls. rewrite <- !app_assoc. reflexivity.
  - apply filter_all_false. subst calls. repeat (apply Forall_app; split);
      try (repeat constructor).
    eapply Forall_impl; [apply open_calls_are_opens|]. intros [] ?; try discriminate; reflexivity.
  - apply filter_all_false. subst calls. repeat (apply Forall_app; split);
      try (repeat constructor).
    eapply Forall_impl; [apply open_calls_are_opens|]. intros [] ?; try discriminate; reflexivity.
Qed.

(** X8: construction succeeds in exactly one situation: the resolution is
    supported, every requested index fits a C [int] and is below the
    connected count, every open call reports success, and the frame rate
    fits a C [int] (which only matters when there is a device to open). *)
Theorem init_succeeds_iff a r f c (s : world D) :
  let l := normalize_ids a in
  let d0 := drv_init (drv s) in
  let count := int_wrap (drv_count_connected d0) in
  (exists cam s', Camera_init a r f c s = (Ok cam, s')) <->
  (exists width height,
     dict_get _RESOLUTION r = Some (width, height) /\
     (l <> [] -> fits_int f = true) /\
     Forall (fun i => fits_int i = true /\ i < count) l /\
     opens_succeed width height f PS3EYE_FORMAT_RGB l d0 = true).
Proof.
  intros l d0 count. split.
  - intros (cam & s' & Hrun).
    destruct (dict_get _RESOLUTION r) as [[width height]|] eqn:Hres;
      [|unfold Camera_init in Hrun; rewrite Hres in Hrun; discriminate].
    exists width, height. split; [reflexivity|].
    rewrite (Camera_init_unfold _ _ _ _ _ _ _ Hres) in Hrun.
    fold l d0 count in Hrun. unfold bind at 1 in Hrun.
    destruct (for_each _ l ∅ _) as [[bufs|e] s1] eqn:Hopen; [|discriminate].
    apply open_loop_inv in Hopen as (Hf & Hl & Hok & _ & _). auto.
  - intros (width & height & Hres & Hf & Hl & Hok).
    rewrite (Camera_init_unfold _ _ _ _ _ _ _ Hres). fold l d0 count.
    unfold bind at 1. rewrite open_loop_ok by auto. cbn [drv trace].
    unfold bind at 1. rewrite control_loop_ok;
      [|eapply Forall_impl; [exact Hl | intros ? []; assumption]
       |apply registry_self_consistent].
    unfold bind, emit, ret. cbn [drv trace]. eauto.
Qed.

(** X9: a construction that fails does so with [KeyError] before any driver
    call, or after [init] and the count query with [OverflowError], the
    missing-index error or the device-open error of a requested index.
    Whichever it is, the driver has only seen open calls and at most an
    uninit since: no parameter was read, nothing was closed, no exit hook
    was registered; and the uninit was issued exactly when the error is
    the missing-index one. *)
Theorem init_failure_taxonomy a r f c (s : world D) e s' :
  Camera_init a r f c s = (Raise e, s') ->
  let count := int_wrap (drv_count_connected (drv_init (drv s))) in
  (e = KeyError /\ s' = s) \/
  (exists new,
     trace s' = trace s ++ ev_init :: ev_count_connected :: new /\
     Forall (fun ev => is_open_call ev = true \/ ev = ev_uninit) new /\
     (e = OverflowError \/
      exists i, i ∈ normalize_ids a /\
        (e = Exception (no_camera_msg i count) \/ e = Exception (open_failed_msg i))) /\
     (ev_uninit ∈ new <-> exists i, e = Exception (no_camera_msg i count))).
Proof.
  intros Hrun count.
  destruct (dict_get _RESOLUTION r) as [[width height]|] eqn:Hres.
  2:{ left. unfold Camera_init in Hrun. rewrite Hres in Hrun.
      injection Hrun as <- <-. auto. }
  right. rewrite (Camera_init_unfold _ _ _ _ _ _ _ Hres) in Hrun.
  fold count in Hrun. unfold bind at 1 in Hrun.
  destruct (for_each _ (normalize_ids a) ∅ _) as [[bufs|e1] s1] eqn:Hopen.
  { apply open_loop_inv in Hopen as (_ & Hl & _ & _ & ->).
    unfold bind at 1 in Hrun. rewrite control_loop_ok in Hrun;
      [|eapply Forall_impl; [exact Hl | intros ? []; assumption]
       |apply registry_self_consistent].
    discriminate. }
  injection Hrun as <- <-.
  apply open_loop_raise_inv in Hopen
    as (pre & bad & post & Hl & _ & _ & Hcases). cbn [drv trace] in Hcases.
  assert (bad ∈ normalize_ids a) as Hbad
    by (rewrite Hl; apply elem_of_app; right; left).
  assert (Forall (fun ev => is_open_call ev = true \/ ev = ev_uninit)
            ((fun i => ev_open i width height f PS3EYE_FORMAT_RGB) <$> pre)) as Hopens.
  { eapply Forall_impl; [apply open_calls_are_opens|]. intros ? ?. left. assumption. }
  assert (ev_uninit ∉ (fun i => ev_open i width height f PS3EYE_FORMAT_RGB) <$> pre)
    as Hnone.
  { intros (i & Hi & _)%list_elem_of_fmap. discriminate. }
  destruct Hcases as [(_ & -> & ->) | [(_ & _ & -> & ->) | (_ & _ & _ & _ & -> & ->)]];
    cbn [trace].
  - exists (((fun i => ev_open i width height f PS3EYE_FORMAT_RGB) <$> pre) ++ [ev_uninit]).
    split; [rewrite <- !app_assoc; reflexivity|].
    split; [apply Forall_app; split; [exact Hopens | repeat constructor; right; reflexivity]|].
    split; [right; exists bad; auto|].
    split; [eauto | intros _; apply elem_of_app; right; left].
  - exists ((fun i => ev_open i width height f PS3EYE_FORMAT_RGB) <$> pre).
    split; [rewrite <- !app_assoc; reflexivity|].
    split; [exact Hopens|]. split; [left; reflexivity|].
    split; [intros ?; contradiction | intros (i & Hi); discriminate].
  - exists (((fun i => ev_open i width height f PS3EYE_FORMAT_RGB) <$> pre) ++
            [ev_open bad width height f PS3EYE_FORMAT_RGB]).
    split; [rewrite <- !app_assoc; reflexivity|].
    split; [apply Forall_app; split; [exact Hopens | repeat constructor; left; reflexivity]|].
    split; [right; exists bad; auto|].
    split.
    + intros [?|Hin]%elem_of_app; [contradiction|].
      apply list_elem_of_singleton in Hin. discriminate.
    + intros (i & Hi). unfold open_failed_msg, no_camera_msg in Hi. discriminate.
Qed.

(** X10: a construction that succeeds only reads the hardware controls: after
    [init], the count query and one open call per index it issues one
    get-parameter call per registry entry and index, 13 times the number
    of indices in all, and no set-parameter, grab, close or uninit call. *)
Theorem init_success_calls a r f c (s : world D) cam s' :
  Camera_init a r f c s = (Ok cam, s') ->
  exists new,
    trace s' = trace s ++ new /\
    (length (List.filter is_get_call new) = 13 * length (ids cam))%nat /\
    (length (List.filter is_open_call new) = length (ids cam))%nat /\
    Forall (fun ev => is_set_call ev = false /\ is_grab_call ev = false /\
                      is_close_call ev = false /\ is_uninit_call ev = false) new.
Proof.
  intros Hrun.
  apply Camera_init_inv in Hrun as (width & height & _ & _ & _ & -> & ->).
  cbn [ids trace]. set (l := normalize_ids a).
  eexists. split; [reflexivity|].
  rewrite !List.filter_app.
  rewrite (filter_all_true is_get_call (get_calls l _PARAMS)) by apply get_calls_are_gets.
  rewrite (filter_all_false is_get_call (_ <$> l))
    by (eapply Forall_impl; [apply open_calls_are_opens|];
        intros [] ?; try discriminate; reflexivity).
  rewrite (filter_all_true is_open_call (_ <$> l)) by apply open_calls_are_opens.
  rewrite (filter_all_false is_open_call (get_calls l _PARAMS))
    by (eapply Forall_impl; [apply get_calls_are_gets|];
        intros [] ?; try discriminate; reflexivity).
  cbn [List.filter is_get_call is_open_call app].
  rewrite !app_nil_r, length_get_calls, length_fmap.
  split; [reflexivity|]. split; [reflexivity|].
  do 2 (constructor; [repeat split|]).
  apply Forall_app. split; [|apply Forall_app; split; [|repeat constructor]].
  - eapply Forall_impl; [apply (open_calls_are_opens width height f PS3EYE_FORMAT_RGB l)|].
    intros [] ?; try discriminate; repeat split.
  - eapply Forall_impl; [apply (get_calls_are_gets l _PARAMS)|].
    intros [] ?; try discriminate; repeat split.
Qed.

(** X11: construction followed by [end]: the driver sees [init], the count
    query, the opens, the parameter reads, then one close for every open,
    for the same devices in the same order, and one [uninit] last. *)
Theorem init_then_end_trace a r f c (s : world D) cam s1 :
  Camera_init a r f c s = (Ok cam, s1) ->
  exists width height cam1 s2,
    dict_get _RESOLUTION r = Some (width, height) /\
    Camera_end cam s1 = (Ok cam1, s2) /\
    _ended cam1 = true /\
    trace s2 =
      trace s ++ [ev_init; ev_count_connected] ++
      ((fun i => ev_open i width height f PS3EYE_FORMAT_RGB) <$> ids cam) ++
      get_calls (ids cam) _PARAMS ++ [ev_atexit_register] ++
      (ev_close <$> ids cam) ++ [ev_uninit].
Proof.
  intros Hrun.
  apply Camera_init_inv in Hrun as (width & height & Hres & Hl & _ & -> & ->).
  exists width, height. unfold Camera_end. cbn [_ended negb ids].
  unfold bind at 1. rewrite close_loop_ok
    by (eapply Forall_impl; [exact Hl | intros ? []; assumption]).
  unfold bind, ps3eye_uninit, ret. cbn [drv trace].
  eexists _, _. split; [exact Hres|]. split; [reflexivity|]. split; [reflexivity|].
  rewrite <- !app_assoc. reflexivity.
Qed.

(** X12: without devices there is nothing to open: [Camera([])] succeeds for
    every frame rate, makes only the [init] and count calls, owns no
    buffer, and each of its channels is an empty list; [read] on it
    returns no image and calls nothing. *)
Theorem init_empty_ids r f c (s : world D) width height :
  dict_get _RESOLUTION r = Some (width, height) ->
  exists cam,
    Camera_init (IdsSeq []) r f c s =
      (Ok cam, World (drv_init (drv s))
                     (trace s ++ [ev_init; ev_count_connected; ev_atexit_register])) /\
    ids cam = [] /\ buffers cam = ∅ /\
    (forall name ctl, controls cam !! name = Some ctl -> items ctl = []) /\
    forall s1 : world D, Camera_read cam s1 = (Ok ([], cam), s1).
Proof.
  intros Hres. eexists. split.
  - rewrite (Camera_init_unfold _ _ _ _ _ _ _ Hres). cbn [normalize_ids for_each].
    unfold bind at 1. unfold ret at 1. unfold bind at 1.
    rewrite control_loop_ok; [|apply List.Forall_nil|apply registry_self_consistent].
    unfold bind, emit, ret. cbn [drv trace].
    replace (get_calls [] _PARAMS) with (@nil event) by reflexivity.
    rewrite app_nil_r, <- app_assoc. reflexivity.
  - cbn [ids buffers controls]. split; [reflexivity|]. split; [reflexivity|]. split.
    + intros name ctl Hctl.
      apply seeded_controls_inv in Hctl as [Hctl | (e & _ & ->)];
        [rewrite lookup_empty in Hctl; discriminate | reflexivity].
    + intros s1. reflexivity.
Qed.

(** ** What a session keeps through [read], [end] and control writes *)

Lemma same_lengths_dom (bufs bufs' : gmap Z (list byte)) :
  (forall i, length <$> bufs' !! i = length <$> bufs !! i) ->
  dom bufs' = dom bufs.
Proof.
  intros Hlen. apply set_eq. intros i. rewrite !elem_of_dom.
  specialize (Hlen i).
  destruct (bufs' !! i), (bufs !! i); try discriminate;
    split; intros [? ?]; try discriminate; eauto.
Qed.

Lemma Camera_end_ok cam (s : world D) :
  session cam -> _ended cam = false ->
  Camera_end cam s =
    (Ok (mkCamera (ids cam) (resolution cam) (w cam) (h cam) (fps cam)
                  (format cam) (depth cam) (buffers cam) (controls cam) true),
     World (drv_uninit (closed_state (ids cam) (drv s)))
           (trace s ++ (ev_close <$> ids cam) ++ [ev_uninit])).
Proof.
  intros Hs Hopen. pose proof (session_is_wf _ Hs) as Hwf.
  unfold Camera_end. rewrite Hopen. cbn [negb].
  unfold bind at 1. rewrite close_loop_ok
    by (eapply Forall_impl; [exact Hwf | intros ? []; assumption]).
  unfold bind, ps3eye_uninit, ret. cbn [drv trace].
  rewrite <- app_assoc. reflexivity.
Qed.

(** X13: every session, whatever was read, written or ended since it was
    built, has the 13 channels of the registry under their names, each
    with its control, its name, its domain and exactly one slot per entry
    of the session's index list. *)
Theorem session_keeps_channels cam :
  session (D:=D) cam ->
  forall p name vals,
    (p, (name, vals)) ∈ _PARAMS ->
    exists ctl,
      controls cam !! name = Some ctl /\
      param_id ctl = p /\ nm ctl = name /\ valid ctl = vals /\
      length (items ctl) = length (ids cam).
Proof.
  induction 1 as [a r f c s cam s' Hrun
                 | cam s imgs cam' s' Hs IH Hrun
                 | cam s cam' s' _ IH Hrun
                 | cam name0 ctl0 pos val s ctl' s' _ IH Hctl0 Hrun];
    intros p name vals Hin.
  - apply Camera_init_inv in Hrun as (width & height & _ & _ & _ & -> & _).
    cbn [controls ids]. eexists. split.
    + apply seeded_controls_lookup; [apply registry_names_distinct | exact Hin].
    + cbn [param_id nm valid items]. unfold seed_values. rewrite length_fmap.
      repeat split.
  - destruct (Camera_read_ok cam s (session_is_wf _ Hs)) as (bufs' & s0 & Hrun0 & _).
    rewrite Hrun0 in Hrun. injection Hrun as _ <- _.
    cbn [controls ids]. apply (IH p name vals Hin).
  - apply Camera_end_fields in Hrun as (Hids & _ & _ & _ & _ & Hctls).
    rewrite Hids, Hctls. apply (IH p name vals Hin).
  - cbn [with_controls controls ids].
    destruct (IH p name vals Hin) as (ctl & Hctl & Hp & Hn & Hv & Hlen).
    destruct (decide (name0 = name)) as [->|Hne].
    + rewrite Hctl in Hctl0. injection Hctl0 as <-.
      apply CtrlList_setitem_fields in Hrun as (Hp' & Hn' & Hv' & Hlen').
      exists ctl'. rewrite lookup_insert_eq. repeat split; congruence.
    + exists ctl. rewrite lookup_insert_ne by exact Hne. auto.
Qed.

(** X14: every session keeps the buffer table construction gave it: its keys
    are exactly the session's indices, every buffer has
    [w * h * depth] bytes, the depth is 3 and the resolution is one of the
    two supported ones, so a buffer is 230400 or 921600 bytes long. *)
Theorem session_keeps_buffers cam :
  session (D:=D) cam ->
  dom (buffers cam) = list_to_set (ids cam) /\
  (forall i buf, buffers cam !! i = Some buf ->
     Z.of_nat (length buf) = w cam * h cam * depth cam) /\
  depth cam = 3 /\
  ((w cam = 320 /\ h cam = 240) \/ (w cam = 640 /\ h cam = 480)).
Proof.
  induction 1 as [a r f c s cam s' Hrun
                 | cam s imgs cam' s' Hs IH Hrun
                 | cam s cam' s' _ IH Hrun
                 | cam name0 ctl0 pos val s ctl' s' _ IH _ _].
  - apply Camera_init_inv in Hrun as (width & height & Hres & _ & _ & -> & _).
    cbn [buffers ids w h depth].
    split; [rewrite allocated_dom, dom_empty_L, (right_id_L ∅ (∪)); reflexivity|].
    split; [|split; [reflexivity|]].
    + intros i buf. rewrite allocated_lookup.
      destruct (decide (i ∈ normalize_ids a)); [|rewrite lookup_empty; discriminate].
      intros [= <-]. apply length_np_bytes.
      destruct (resolution_cases _ _ _ Hres) as [(_ & -> & ->) | (_ & -> & ->)]; lia.
    + destruct (resolution_cases _ _ _ Hres) as [(_ & -> & ->) | (_ & -> & ->)]; auto.
  - destruct (Camera_read_ok cam s (session_is_wf _ Hs)) as (bufs' & s0 & Hrun0 & _ & Hlen).
    rewrite Hrun0 in Hrun. injection Hrun as _ <- _.
    cbn [buffers ids w h depth]. destruct IH as (Hdom & Hsize & Hd & Hres).
    split; [rewrite (same_lengths_dom _ _ Hlen); exact Hdom|].
    split; [|auto].
    intros i buf' Hbuf'. specialize (Hlen i). rewrite Hbuf' in Hlen.
    destruct (buffers cam !! i) as [buf|] eqn:Hbuf; [|discriminate].
    injection Hlen as Hlen. rewrite Hlen. apply (Hsize i). exact Hbuf.
  - apply Camera_end_fields in Hrun as (-> & -> & -> & -> & -> & _). exact IH.
  - exact IH.
Qed.

(** X15: [read] touches nothing but the bytes in the buffers: the index list,
    the configuration, the channels and the ended flag are as before, and
    so are the keys of the buffer table and the size of every buffer. *)
Theorem read_keeps_session_shape cam (s : world D) imgs cam' s' :
  session cam ->
  Camera_read cam s = (Ok (imgs, cam'), s') ->
  ids cam' = ids cam /\ resolution cam' = resolution cam /\
  w cam' = w cam /\ h cam' = h cam /\ depth cam' = depth cam /\
  fps cam' = fps cam /\ format cam' = format cam /\
  controls cam' = controls cam /\ _ended cam' = _ended cam /\
  dom (buffers cam') = dom (buffers cam) /\
  forall i, length <$> buffers cam' !! i = length <$> buffers cam !! i.
Proof.
  intros Hs Hrun.
  destruct (Camera_read_ok cam s (session_is_wf _ Hs)) as (bufs' & s0 & Hrun0 & _ & Hlen).
  rewrite Hrun0 in Hrun. injection Hrun as _ <- _. cbn.
  repeat (split; [reflexivity|]).
  split; [apply same_lengths_dom; exact Hlen | exact Hlen].
Qed.

(** X16: [read] does not look at the ended flag: on a session that has just
    been ended it still asks the driver for one frame per index, after
    the devices were closed and the driver context released. *)
Theorem read_after_end cam (s : world D) :
  session cam ->
  _ended cam = false ->
  exists cam1 s1 imgs cam2 s2,
    Camera_end cam s = (Ok cam1, s1) /\
    _ended cam1 = true /\
    Camera_read cam1 s1 = (Ok (imgs, cam2), s2) /\
    length imgs = length (ids cam) /\
    trace s2 =
      trace s ++ (ev_close <$> ids cam) ++ [ev_uninit] ++ (ev_grab_frame <$> ids cam).
Proof.
  intros Hs Hopen.
  pose proof (Camera_end_ok cam s Hs Hopen) as Hend.
  pose proof (session_end _ _ _ _ Hs Hend) as Hs1.
  destruct (Camera_read_ok _ (World (drv_uninit (closed_state (ids cam) (drv s)))
                                    (trace s ++ (ev_close <$> ids cam) ++ [ev_uninit]))
              (session_is_wf _ Hs1)) as (bufs' & s2 & Hread & Htrace & _).
  cbn [ids w h depth trace] in *.
  eexists _, _, _, _, s2. split; [exact Hend|]. split; [reflexivity|].
  split; [exact Hread|]. split; [apply length_fmap|].
  rewrite Htrace, <- !app_assoc. reflexivity.
Qed.

End CameraEdges.

Lemma init_unsupported_resolution_witness :
  2 <> RES_SMALL /\ 2 <> RES_LARGE /\
  Camera_init (IdsInt 0) 2 60 true (Sim.boot 1 true) = (Raise KeyError, Sim.boot 1 true).
Proof.
  assert (2 <> RES_SMALL) as H0 by by_computation.
  assert (2 <> RES_LARGE) as H1 by by_computation.
  split; [exact H0|]. split; [exact H1|].
  exact (init_unsupported_resolution (IdsInt 0) 2 60 true (Sim.boot 1 true) H0 H1).
Defined.

(** [Camera(0, color=False)]: the session is in RGB with depth 3. *)
Lemma init_ignores_color_witness :
  exists cam s',
    Camera_init (IdsInt 0) RES_SMALL 60 false (Sim.boot 1 true) = (Ok cam, s') /\
    format cam = PS3EYE_FORMAT_RGB /\ depth cam = 3 /\
    Camera_init (IdsInt 0) RES_SMALL 60 (negb false) (Sim.boot 1 true) = (Ok cam, s').
Proof.
  eexists _, _. split.
  - sim_init_run (IdsInt 0) RES_SMALL 60 false (Sim.boot 1 true) 320 240.
  - eapply init_ignores_color.
    sim_init_run (IdsInt 0) RES_SMALL 60 false (Sim.boot 1 true) 320 240.
Defined.

(** One camera; [Camera([0, -1])]: index -1 passes the count check, its
    open call fails, device 0 stays open. *)
Lemma init_open_failure_witness :
  let s := Sim.boot 1 true in
  let d0 := drv_init (drv s) in
  let count := int_wrap (drv_count_connected d0) in
  dict_get _RESOLUTION RES_SMALL = Some (320, 240) /\
  fits_int 60 = true /\
  Forall (fun i => fits_int i = true /\ i < count) [0] /\
  opens_succeed 320 240 60 PS3EYE_FORMAT_RGB [0] d0 = true /\
  fits_int (-1) = true /\ -1 < count /\
  (drv_open (opened_state 320 240 60 PS3EYE_FORMAT_RGB [0] d0)
            (-1) 320 240 60 PS3EYE_FORMAT_RGB).2 = false /\
  Camera_init (IdsSeq [0; -1]) RES_SMALL 60 true s =
    (Raise (Exception (open_failed_msg (-1))),
     World (drv s) [ev_init; ev_count_connected;
                    ev_open 0 320 240 60 PS3EYE_FORMAT_RGB;
                    ev_open (-1) 320 240 60 PS3EYE_FORMAT_RGB]).
Proof.
  intros s d0 count.
  assert (Forall (fun i => fits_int i = true /\ i < count) [0]) as Hpre by by_computation.
  assert (-1 < count) as Hlt by by_computation.
  split; [reflexivity|]. split; [reflexivity|]. split; [exact Hpre|].
  split; [reflexivity|]. split; [reflexivity|]. split; [exact Hlt|].
  split; [reflexivity|].
  exact (proj1 (init_open_failure [0] (-1) [] RES_SMALL 60 true s 320 240
                  eq_refl eq_refl Hpre eq_refl eq_refl Hlt eq_refl)).
Defined.

(** Both directions at one camera and index 0. *)
Lemma init_succeeds_iff_witness :
  (exists cam s', Camera_init (IdsInt 0) RES_SMALL 60 true (Sim.boot 1 true) = (Ok cam, s')) /\
  ~ (exists cam s', Camera_init (IdsInt 1) RES_SMALL 60 true (Sim.boot 1 true) = (Ok cam, s')).
Proof.
  split.
  - apply (proj2 (init_succeeds_iff (IdsInt 0) RES_SMALL 60 true (Sim.boot 1 true))).
    exists 320, 240. split; [reflexivity|]. split; [reflexivity|].
    split; [by_computation | reflexivity].
  - intros Hok.
    apply (proj1 (init_succeeds_iff (IdsInt 1) RES_SMALL 60 true (Sim.boot 1 true))) in Hok
      as (width & height & _ & _ & Hl & _).
    inversion Hl as [|? ? [_ Hlt] _]; subst. vm_compute in Hlt. discriminate.
Defined.

(** One camera, index 5 requested. *)
Lemma init_failure_taxonomy_witness :
  let s := Sim.boot 1 true in
  let s' := World (drv s) [ev_init; ev_count_connected; ev_uninit] in
  Camera_init (IdsInt 5) RES_SMALL 60 true s = (Raise (Exception (no_camera_msg 5 1)), s') /\
  exists new,
    trace s' = trace s ++ ev_init :: ev_count_connected :: new /\
    (ev_uninit ∈ new <->
     exists i, Exception (no_camera_msg 5 1) =
               Exception (no_camera_msg i (int_wrap (drv_count_connected (drv_init (drv s)))))).
Proof.
  intros s s'.
  assert (Camera_init (IdsInt 5) RES_SMALL 60 true s =
            (Raise (Exception (no_camera_msg 5 1)), s')) as Hrun
    by (vm_compute; reflexivity).
  split; [exact Hrun|].
  destruct (init_failure_taxonomy _ _ _ _ _ _ _ Hrun) as [[Hkey _] | (new & Ht & _ & _ & Hiff)];
    [discriminate|].
  exists new. split; [exact Ht | exact Hiff].
Defined.

(** Two cameras: 26 parameter reads, 2 opens. *)
Lemma init_success_calls_witness :
  exists cam s' new,
    Camera_init (IdsSeq [0; 1]) RES_SMALL 60 true (Sim.boot 2 true) = (Ok cam, s') /\
    trace s' = new /\
    length (List.filter is_get_call new) = 26%nat /\
    length (List.filter is_open_call new) = 2%nat.
Proof.
  assert (exists cam s',
            Camera_init (IdsSeq [0; 1]) RES_SMALL 60 true (Sim.boot 2 true) = (Ok cam, s') /\
            ids cam = [0; 1]) as (cam & s' & Hrun & Hids).
  { eexists _, _. split;
      [sim_init_run (IdsSeq [0; 1]) RES_SMALL 60 true (Sim.boot 2 true) 320 240
      |reflexivity]. }
  destruct (init_success_calls _ _ _ _ _ _ _ Hrun) as (new & Ht & Hget & Hopen & _).
  rewrite Hids in Hget, Hopen.
  exists cam, s', new. split; [exact Hrun|]. split; [exact Ht|].
  split; [exact Hget | exact Hopen].
Defined.

Lemma init_then_end_trace_witness :
  exists cam s1 cam1 s2,
    Camera_init (IdsInt 0) RES_SMALL 60 true (Sim.boot 1 true) = (Ok cam, s1) /\
    Camera_end cam s1 = (Ok cam1, s2) /\
    List.filter is_open_call (trace s2) = [ev_open 0 320 240 60 PS3EYE_FORMAT_RGB] /\
    List.filter is_close_call (trace s2) = [ev_close 0] /\
    last (trace s2) = Some ev_uninit.
Proof.
  assert (exists cam s1,
            Camera_init (IdsInt 0) RES_SMALL 60 true (Sim.boot 1 true) = (Ok cam, s1) /\
            ids cam = [0]) as (cam & s1 & Hrun & Hids).
  { eexists _, _. split;
      [sim_init_run (IdsInt 0) RES_SMALL 60 true (Sim.boot 1 true) 320 240
      |reflexivity]. }
  destruct (init_then_end_trace _ _ _ _ _ _ _ Hrun)
    as (width & height & cam1 & s2 & Hres & Hend & _ & Ht).
  injection Hres as <- <-.
  exists cam, s1, cam1, s2. split; [exact Hrun|]. split; [exact Hend|].
  rewrite Ht, Hids. clear. vm_compute. repeat split.
Defined.

(** [Camera([], fps=2**40)]: no device, so the frame rate is never
    converted. *)
Lemma init_empty_ids_witness :
  dict_get _RESOLUTION RES_LARGE = Some (640, 480) /\
  fits_int (2 ^ 40) = false /\
  exists cam,
    Camera_init (IdsSeq []) RES_LARGE (2 ^ 40) true (Sim.boot 1 true) =
      (Ok cam, World (drv (Sim.boot 1 true))
                     [ev_init; ev_count_connected; ev_atexit_register]) /\
    ids cam = [] /\ buffers cam = ∅.
Proof.
  split; [reflexivity|]. split; [reflexivity|].
  destruct (init_empty_ids RES_LARGE (2 ^ 40) true (Sim.boot 1 true) 640 480 eq_refl)
    as (cam & Hrun & Hids & Hbufs & _).
  exists cam. split; [exact Hrun|]. split; [exact Hids | exact Hbufs].
Defined.

(** One camera, after a read: the channel [gain] is there, with one slot. *)
Lemma session_keeps_channels_witness :
  exists cam s0 imgs cam' s',
    Camera_init (IdsInt 0) RES_SMALL 60 true (Sim.boot 1 true) = (Ok cam, s0) /\
    Camera_read cam s0 = (Ok (imgs, cam'), s') /\
    session (D:=Sim.state) cam' /\
    exists ctl, controls cam' !! "gain" = Some ctl /\
                valid ctl = py_range 64 /\ length (items ctl) = length (ids cam').
Proof.
  assert (exists cam s0,
            Camera_init (IdsInt 0) RES_SMALL 60 true (Sim.boot 1 true) = (Ok cam, s0))
    as (cam & s0 & Hrun).
  { eexists _, _. sim_init_run (IdsInt 0) RES_SMALL 60 true (Sim.boot 1 true) 320 240. }
  pose proof (session_init _ _ _ _ _ _ _ Hrun) as Hs.
  destruct (Camera_read_ok cam s0 (session_is_wf _ Hs)) as (bufs' & s' & Hread & _).
  pose proof (session_read _ _ _ _ _ Hs Hread) as Hs'.
  eexists cam, s0, _, _, s'. split; [exact Hrun|]. split; [exact Hread|].
  split; [exact Hs'|].
  destruct (session_keeps_channels _ Hs' PS3EYE_GAIN "gain" (py_range 64))
    as (ctl & Hctl & _ & _ & Hvalid & Hlen); [by_computation|].
  exists ctl. split; [exact Hctl|]. split; [exact Hvalid | exact Hlen].
Defined.

(** One camera, small frames, after a read: one buffer of 230400 bytes. *)
Lemma session_keeps_buffers_witness :
  exists cam s0 imgs cam' s',
    Camera_init (IdsInt 0) RES_SMALL 60 true (Sim.boot 1 true) = (Ok cam, s0) /\
    Camera_read cam s0 = (Ok (imgs, cam'), s') /\
    session (D:=Sim.state) cam' /\
    dom (buffers cam') = list_to_set (ids cam') /\
    forall i buf, buffers cam' !! i = Some buf -> Z.of_nat (length buf) = 230400.
Proof.
  assert (exists cam s0,
            Camera_init (IdsInt 0) RES_SMALL 60 true (Sim.boot 1 true) = (Ok cam, s0) /\
            w cam * h cam * depth cam = 230400)
    as (cam & s0 & Hrun & Hsize).
  { eexists _, _. split;
      [sim_init_run (IdsInt 0) RES_SMALL 60 true (Sim.boot 1 true) 320 240
      |reflexivity]. }
  pose proof (session_init _ _ _ _ _ _ _ Hrun) as Hs.
  destruct (Camera_read_ok cam s0 (session_is_wf _ Hs)) as (bufs' & s' & Hread & _).
  pose proof (session_read _ _ _ _ _ Hs Hread) as Hs'.
  eexists cam, s0, _, _, s'. split; [exact Hrun|]. split; [exact Hread|].
  split; [exact Hs'|].
  destruct (session_keeps_buffers _ Hs') as (Hdom & Hbuf & _).
  split; [exact Hdom|].
  intros i buf Hi. rewrite (Hbuf i buf Hi). exact Hsize.
Defined.

Lemma read_keeps_session_shape_witness :
  exists cam s0 imgs cam' s',
    Camera_init (IdsInt 0) RES_SMALL 60 true (Sim.boot 1 true) = (Ok cam, s0) /\
    session (D:=Sim.state) cam /\
    Camera_read cam s0 = (Ok (imgs, cam'), s') /\
    ids cam' = ids cam /\ controls cam' = controls cam /\
    dom (buffers cam') = dom (buffers cam).
Proof.
  assert (exists cam s0,
            Camera_init (IdsInt 0) RES_SMALL 60 true (Sim.boot 1 true) = (Ok cam, s0))
    as (cam & s0 & Hrun).
  { eexists _, _. sim_init_run (IdsInt 0) RES_SMALL 60 true (Sim.boot 1 true) 320 240. }
  pose proof (session_init _ _ _ _ _ _ _ Hrun) as Hs.
  destruct (Camera_read_ok cam s0 (session_is_wf _ Hs)) as (bufs' & s' & Hread & _).
  destruct (read_keeps_session_shape _ _ _ _ _ Hs Hread)
    as (Hids & _ & _ & _ & _ & _ & _ & Hctls & _ & Hdom & _).
  eexists cam, s0, _, _, s'. split; [exact Hrun|]. split; [exact Hs|].
  split; [exact Hread|]. split; [exact Hids|]. split; [exact Hctls | exact Hdom].
Defined.

Lemma read_after_end_witness :
  exists cam s0 cam1 s1 imgs cam2 s2,
    Camera_init (IdsInt 0) RES_SMALL 60 true (Sim.boot 1 true) = (Ok cam, s0) /\
    session (D:=Sim.state) cam /\ _ended cam = false /\
    Camera_end cam s0 = (Ok cam1, s1) /\
    Camera_read cam1 s1 = (Ok (imgs, cam2), s2) /\
    trace s2 = trace s0 ++ [ev_close 0; ev_uninit; ev_grab_frame 0].
Proof.
  assert (exists cam s0,
            Camera_init (IdsInt 0) RES_SMALL 60 true (Sim.boot 1 true) = (Ok cam, s0) /\
            _ended cam = false /\ ids cam = [0])
    as (cam & s0 & Hrun & Hopen & Hids).
  { eexists _, _. split;
      [sim_init_run (IdsInt 0) RES_SMALL 60 true (Sim.boot 1 true) 320 240
      |split; reflexivity]. }
  pose proof (session_init _ _ _ _ _ _ _ Hrun) as Hs.
  destruct (read_after_end cam s0 Hs Hopen)
    as (cam1 & s1 & imgs & cam2 & s2 & Hend & _ & Hread & _ & Ht).
  rewrite Hids in Ht.
  exists cam, s0, cam1, s1, imgs, cam2, s2.
  split; [exact Hrun|]. split; [exact Hs|]. split; [exact Hopen|].
  split; [exact Hend|]. split; [exact Hread | exact Ht].
Defined.

(** ** What [read] puts in the buffers, and what a write can do at all *)

Section ReadAndWrite.
Context {D : Type} `{!Driver D}.

Lemma overwrite_full buf frame : length frame = length buf -> overwrite buf frame = frame.
Proof.
  intros Hlen. unfold overwrite.
  rewrite take_ge, drop_ge, app_nil_r by lia. reflexivity.
Qed.

Lemma read_frame_inv self i bufs imgs (s : world D) st s' :
  read_frame self i (bufs, imgs) s = (Ok st, s') ->
  exists buf,
    bufs !! i = Some buf /\
    st = (<[i := overwrite buf (drv_grab_frame (drv s) i).2]> bufs,
          imgs ++ [mkArray i [h self; w self; depth self]]) /\
    s' = World (drv_grab_frame (drv s) i).1 (trace s ++ [ev_grab_frame i]).
Proof.
  unfold read_frame, bind, as_int.
  destruct (fits_int i); [|discriminate]. unfold ret. cbn [fst snd].
  destruct (bufs !! i) as [buf|]; [|discriminate].
  unfold ps3eye_grab_frame.
  destruct (drv_grab_frame (drv s) i) as [d frame]. cbn [fst snd].
  destruct (_ =? _); [|discriminate].
  intros [= <- <-]. eauto.
Qed.

Lemma read_loop_buffers self l : forall bufs imgs (s : world D) bufs' imgs' s',
  for_each (read_frame self) l (bufs, imgs) s = (Ok (bufs', imgs'), s') ->
  NoDup l ->
  (forall k i frame,
     l !! k = Some i -> grabbed_frames l (drv s) !! k = Some frame ->
     exists buf, bufs !! i = Some buf /\ bufs' !! i = Some (overwrite buf frame)) /\
  (forall j, j ∉ l -> bufs' !! j = bufs !! j).
Proof.
  induction l as [|i l IH]; intros bufs imgs s bufs' imgs' s' Hrun Hnd.
  - injection Hrun as <- <- <-. split; [intros k i frame Hk; inversion Hk | reflexivity].
  - cbn [for_each] in Hrun. unfold bind in Hrun.
    destruct (read_frame self i (bufs, imgs) s) as [[st|e] s1] eqn:Hstep; [|discriminate].
    apply read_frame_inv in Hstep as (buf & Hbuf & -> & ->).
    apply NoDup_cons in Hnd as [Hfresh Hnd].
    destruct (IH _ _ _ _ _ _ Hrun Hnd) as [Hin Hout]. cbn [drv] in Hin.
    cbn [grabbed_frames].
    destruct (drv_grab_frame (drv s) i) as [d frame0] eqn:Hgrab. cbn [fst snd] in *.
    split.
    + intros [|k] j frame Hk Hframe; cbn in Hk, Hframe.
      * injection Hk as <-. injection Hframe as <-. exists buf. split; [exact Hbuf|].
        rewrite (Hout i Hfresh). apply lookup_insert_eq.
      * destruct (Hin k j frame Hk Hframe) as (buf1 & Hbuf1 & Hres).
        assert (i <> j) as Hne.
        { intros ->. apply Hfresh. eapply list_elem_of_lookup_2. exact Hk. }
        rewrite lookup_insert_ne in Hbuf1 by exact Hne. eauto.
    + intros j Hj. apply not_elem_of_cons in Hj as [Hne Hj].
      rewrite (Hout j Hj). apply lookup_insert_ne. congruence.
Qed.

(** X17: with pairwise distinct indices, [read] leaves in the buffer of each
    device the frame the driver delivered for that device, written over
    what the buffer held; a frame of the buffer's size replaces its
    content entirely. *)
Theorem read_stores_frames cam (s : world D) imgs cam' s' :
  session cam ->
  NoDup (ids cam) ->
  Camera_read cam s = (Ok (imgs, cam'), s') ->
  forall k i frame,
    ids cam !! k = Some i ->
    grabbed_frames (ids cam) (drv s) !! k = Some frame ->
    exists buf,
      buffers cam !! i = Some buf /\
      buffers cam' !! i = Some (overwrite buf frame) /\
      (Z.of_nat (length frame) = h cam * w cam * depth cam ->
       buffers cam' !! i = Some frame).
Proof.
  intros Hs Hnd Hrun k i frame Hk Hframe.
  pose proof (session_is_wf _ Hs) as Hwf.
  unfold Camera_read, bind in Hrun.
  destruct (for_each _ (ids cam) (buffers cam, []) s) as [[[bufs' imgs']|e] s1] eqn:Hloop;
    [|discriminate].
  unfold ret in Hrun. injection Hrun as _ <- _. cbn [buffers].
  destruct (read_loop_buffers _ _ _ _ _ _ _ _ Hloop Hnd) as [Hin _].
  destruct (Hin k i frame Hk Hframe) as (buf & Hbuf & Hres).
  exists buf. split; [exact Hbuf|]. split; [exact Hres|].
  intros Hlen. rewrite Hres. f_equal. apply overwrite_full.
  pose proof (proj1 (Forall_forall _ _) Hwf i (list_elem_of_lookup_2 _ _ _ Hk))
    as (_ & buf0 & Hbuf0 & Hsize).
  rewrite Hbuf in Hbuf0. injection Hbuf0 as <-. lia.
Qed.

(** X4: whatever its arguments, a write ends in one of four ways: it raises
    [OverflowError] having done nothing; it warns that the adjustment was
    aborted, the driver untouched; it makes one set and one get call on
    device [pos] and then either stores the value or raises [IndexError];
    or it makes the two calls and warns that the adjustment failed.  It
    never makes another driver call and never raises anything else. *)
Theorem setitem_outcomes (self : CtrlList) pos val (s : world D) r s' :
  CtrlList_setitem self pos val s = (r, s') ->
  let calls := [ev_set_parameter pos (param_id self) (py_index val);
                ev_get_parameter pos (param_id self)] in
  (r = Raise OverflowError /\ s' = s) \/
  (r = Ok self /\ drv s' = drv s /\
   trace s' = trace s ++ [ev_warn (aborted_msg (nm self) (valid self) val)]) \/
  (trace s' = trace s ++ calls /\
   (r = Raise IndexError \/
    exists l, r = Ok (mkCtrlList l (param_id self) (nm self) (valid self)) /\
              length l = length (items self))) \/
  (r = Ok self /\
   trace s' = trace s ++ calls ++ [ev_warn (failed_msg (nm self) (valid self) val)]).
Proof.
  intros Hrun calls. unfold CtrlList_setitem in Hrun.
  destruct (py_in val (valid self)) eqn:Hin; cbn [negb] in Hrun.
  - destruct (fits_int pos) eqn:Hpos.
    2:{ left. unfold bind, as_int in Hrun. rewrite Hpos in Hrun.
        injection Hrun as <- <-. auto. }
    destruct (fits_int (py_index val)) eqn:Hval.
    2:{ left. unfold bind, as_int in Hrun. rewrite Hpos, Hval in Hrun.
        injection Hrun as <- <-. auto. }
    right. right.
    fold (CtrlList_setitem self pos val s) in Hrun.
    unfold bind, as_int in Hrun. rewrite Hpos, Hval in Hrun.
    unfold ret, ps3eye_set_parameter in Hrun. cbn [fst snd] in Hrun.
    destruct (drv_set_parameter _ _ _ _) as [d r0]. cbn [fst snd] in Hrun.
    unfold ps3eye_get_parameter in Hrun. cbn [fst snd drv trace] in Hrun.
    rewrite <- app_assoc in Hrun. cbn [app] in Hrun.
    destruct (py_eq _ _); cbn [negb] in Hrun.
    + left. unfold list_setitem in Hrun.
      destruct (_ && _); injection Hrun as <- <-; cbn [trace];
        (split; [reflexivity|]); [right | left; reflexivity].
      eexists. split; [reflexivity | apply length_insert].
    + right. unfold warnings_warn, emit in Hrun. injection Hrun as <- <-.
      cbn [trace]. split; [reflexivity|]. rewrite <- app_assoc. reflexivity.
  - right. left. unfold bind, warnings_warn, emit, ret in Hrun.
    injection Hrun as <- <-. auto.
Qed.

End ReadAndWrite.

(** One camera: after [read] the buffer starts with the three bytes the
    simulated driver delivers. *)
Lemma read_stores_frames_witness :
  exists cam s0 imgs cam' s',
    Camera_init (IdsInt 0) RES_SMALL 60 true (Sim.boot 1 true) = (Ok cam, s0) /\
    session (D:=Sim.state) cam /\ NoDup (ids cam) /\
    Camera_read cam s0 = (Ok (imgs, cam'), s') /\
    ids cam !! 0%nat = Some 0 /\
    grabbed_frames (ids cam) (drv s0) !! 0%nat = Some [x01; x02; x03] /\
    exists buf,
      buffers cam !! 0 = Some buf /\
      buffers cam' !! 0 = Some (overwrite buf [x01; x02; x03]).
Proof.
  assert (exists cam s0,
            Camera_init (IdsInt 0) RES_SMALL 60 true (Sim.boot 1 true) = (Ok cam, s0) /\
            ids cam = [0] /\
            grabbed_frames (ids cam) (drv s0) !! 0%nat = Some [x01; x02; x03])
    as (cam & s0 & Hrun & Hids & Hframe).
  { eexists _, _. split;
      [sim_init_run (IdsInt 0) RES_SMALL 60 true (Sim.boot 1 true) 320 240
      |split; reflexivity]. }
  pose proof (session_init _ _ _ _ _ _ _ Hrun) as Hs.
  assert (NoDup (ids cam)) as Hnd by (rewrite Hids; by_computation).
  assert (ids cam !! 0%nat = Some 0) as Hk by (rewrite Hids; reflexivity).
  destruct (Camera_read_ok cam s0 (session_is_wf _ Hs)) as (bufs' & s' & Hread & _).
  destruct (read_stores_frames _ _ _ _ _ Hs Hnd Hread 0%nat 0 _ Hk Hframe)
    as (buf & Hbuf & Hres & _).
  eexists cam, s0, _, _, s'. split; [exact Hrun|]. split; [exact Hs|].
  split; [exact Hnd|]. split; [exact Hread|]. split; [exact Hk|].
  split; [exact Hframe|]. exists buf. split; [exact Hbuf | exact Hres].
Defined.

(** [gain[5] = 7] on a one-slot channel over obedient firmware: the two
    calls, then [IndexError]. *)
Lemma setitem_outcomes_witness :
  let self := mkCtrlList [PInt 0] PS3EYE_GAIN "gain" (py_range 64) in
  let s := Sim.boot 6 true in
  let s' := World (Sim.mkState 6 true [((5, PS3EYE_GAIN), 7)])
                  [ev_set_parameter 5 PS3EYE_GAIN 7; ev_get_parameter 5 PS3EYE_GAIN] in
  CtrlList_setitem self 5 (PInt 7) s = (Raise IndexError, s') /\
  trace s' = trace s ++ [ev_set_parameter 5 PS3EYE_GAIN 7; ev_get_parameter 5 PS3EYE_GAIN].
Proof.
  intros self s s'.
  assert (CtrlList_setitem self 5 (PInt 7) s = (Raise IndexError, s')) as Hrun
    by (vm_compute; reflexivity).
  split; [exact Hrun|].
  destruct (setitem_outcomes _ _ _ _ _ _ Hrun)
    as [[Hr _] | [(Hr & _) | [(Ht & _) | (Hr & _)]]]; try discriminate.
  exact Ht.
Defined.
